(** * ClauseWise: rule-based entity extraction, reconciliation and the
      Granite generation wrapper

    A shallow embedding of
      - [backend/api/routers/entities.py]   (pattern extractor, merge), and
      - [backend/services/granite_llm.py]   (model life cycle, generation
        wrapper, response parsers),
    followed by the properties established about them.

    Python values are modelled as follows.
      - [str]   : a list of Unicode code points ([pystr := list N]);
      - [list]  : a Rocq list;
      - [dict]  : a finite map ([gmap pystr _]) keyed by strings;
      - [float] : an IEEE-754 binary64 value ([spec_float], precision 53,
                  [emax] 1024), decimal literals being rounded to nearest
                  even as Python does;
      - [set]   : a list without duplicates whose order is fixed by an
                  arbitrary iteration-order function (see [SetOrder]);
      - exceptions : the [result] type, handled by [try_except]. *)

From Stdlib Require Import NArith ZArith List Ascii String Bool Lia.
From Stdlib Require Import Floats.SpecFloat.
From stdpp Require Import base option list gmap.

Set Default Proof Using "Type".
Local Open Scope N_scope.

(* ===================================================================== *)
(** * Python strings                                                      *)
(* ===================================================================== *)

Module PyStr.

(** A string is its sequence of code points. *)
Abbreviation pystr := (list N).

(** ** Literals

    Rocq string literals are byte strings; [str] reads the bytes as UTF-8
    so that a literal denotes the same code points as the Python source
    literal (the bullet U+2022 is three bytes in this file). *)

Fixpoint utf8_decode (need : nat) (acc : N) (bs : list N) : pystr :=
  match bs with
  | [] => []
  | b :: bs' =>
    match need with
    | S n =>
      let acc' := acc * 64 + b mod 64 in
      match n with
      | O => acc' :: utf8_decode O 0 bs'
      | S _ => utf8_decode n acc' bs'
      end
    | O =>
      if b <? 128 then b :: utf8_decode O 0 bs'
      else if b <? 224 then utf8_decode 1 (b mod 32) bs'
      else if b <? 240 then utf8_decode 2 (b mod 16) bs'
      else utf8_decode 3 (b mod 8) bs'
    end
  end.

Definition str (s : string) : pystr :=
  utf8_decode O 0 (map N_of_ascii (list_ascii_of_string s)).

Arguments str : simpl never.

(** The line feed, written [\n] in the Python source. *)
Definition LF : N := 10.

(** ** Character classes *)

(** [str.isspace] on one code point: the Unicode white-space characters
    together with the four separators U+001C..U+001F. *)
Definition isspace (c : N) : bool :=
  ((9 <=? c) && (c <=? 13)) || ((28 <=? c) && (c <=? 32))
  || (c =? 133) || (c =? 160) || (c =? 5760)
  || ((8192 <=? c) && (c <=? 8202))
  || (c =? 8232) || (c =? 8233) || (c =? 8239) || (c =? 8287)
  || (c =? 12288).

Definition is_upper (c : N) : bool := (65 <=? c) && (c <=? 90).
Definition is_lower (c : N) : bool := (97 <=? c) && (c <=? 122).
Definition is_alpha (c : N) : bool := is_upper c || is_lower c.
Definition is_digit (c : N) : bool := (48 <=? c) && (c <=? 57).

(** Case mapping and the letter and digit classes are those of the ASCII
    range; code points outside it are caseless and are neither letters
    nor digits in this model. *)
Definition lower_char (c : N) : N := if is_upper c then c + 32 else c.
Definition upper_char (c : N) : N := if is_lower c then c - 32 else c.

(** ** Methods of [str] *)

Definition lower (s : pystr) : pystr := map lower_char s.

(** [s.title()]: the first letter of every run of letters is upper-cased,
    the others lower-cased. *)
Fixpoint title_from (prev_cased : bool) (s : pystr) : pystr :=
  match s with
  | [] => []
  | c :: s' =>
    (if prev_cased then lower_char c else upper_char c)
      :: title_from (is_alpha c) s'
  end.

Definition title (s : pystr) : pystr := title_from false s.

(** [s.lstrip(chars)], [s.lstrip()], [s.rstrip()], [s.strip()]. *)
Fixpoint lstrip_by (p : N -> bool) (s : pystr) : pystr :=
  match s with
  | [] => []
  | c :: s' => if p c then lstrip_by p s' else s
  end.

Definition lstrip_chars (chars s : pystr) : pystr :=
  lstrip_by (fun c => bool_decide (c ∈ chars)) s.

Definition lstrip (s : pystr) : pystr := lstrip_by isspace s.
Definition rstrip (s : pystr) : pystr := rev (lstrip_by isspace (rev s)).
Definition strip (s : pystr) : pystr := rstrip (lstrip s).

(** [s.startswith(p)]. *)
Fixpoint startswith (s p : pystr) : bool :=
  match p, s with
  | [], _ => true
  | _ :: _, [] => false
  | a :: p', b :: s' => (a =? b) && startswith s' p'
  end.

(** [sub in s]. *)
Fixpoint contains (s sub : pystr) : bool :=
  startswith s sub ||
  match s with
  | [] => false
  | _ :: s' => contains s' sub
  end.

(** [s.split(sep)] for a non-empty separator: non-overlapping occurrences
    are found from left to right.  [skip] counts the characters of an
    occurrence still to be passed over; [cur] is the current field,
    reversed. *)
Fixpoint split_go (sep : pystr) (skip : nat) (cur s : pystr) : list pystr :=
  match s with
  | [] => [rev cur]
  | c :: s' =>
    match skip with
    | S k => split_go sep k cur s'
    | O =>
      if startswith s sep
      then rev cur :: split_go sep (pred (length sep)) [] s'
      else split_go sep O (c :: cur) s'
    end
  end.

Definition split (s sep : pystr) : list pystr := split_go sep O [] s.

(** [s.replace(old, new)] for a non-empty [old]. *)
Fixpoint replace_go (old new : pystr) (skip : nat) (s : pystr) : pystr :=
  match s with
  | [] => []
  | c :: s' =>
    match skip with
    | S k => replace_go old new k s'
    | O =>
      if startswith s old
      then new ++ replace_go old new (pred (length old)) s'
      else c :: replace_go old new O s'
    end
  end.

Definition replace (s old new : pystr) : pystr := replace_go old new O s.

(** [sep.join(xs)]. *)
Fixpoint join (sep : pystr) (xs : list pystr) : pystr :=
  match xs with
  | [] => []
  | [x] => x
  | x :: xs' => x ++ sep ++ join sep xs'
  end.

(** Truthiness of a string: non-empty. *)
Definition truthy (s : pystr) : bool :=
  match s with [] => false | _ :: _ => true end.

Definition eqb (a b : pystr) : bool := bool_decide (a = b).

Arguments strip : simpl never.
Arguments split : simpl never.
Arguments replace : simpl never.
Arguments lower : simpl never.

End PyStr.
Import PyStr.

(* ===================================================================== *)
(** * Regular expressions ([re])                                          *)
(* ===================================================================== *)

Module Re.

(** An item of a bracketed character set. *)
Inductive set_item :=
| IChar (c : N)
| IRange (lo hi : N)
| ISpace                       (* \s *)
| IDigit.                      (* \d *)

(** Abstract syntax of the patterns used by the program.  All repetitions
    are greedy; groups only group (the program never reads a group other
    than the whole match). *)
Inductive regex :=
| RChar (c : N)
| RSet (negated : bool) (items : list set_item)
| RBoundary                    (* \b *)
| REmpty
| RSeq (r1 r2 : regex)
| RAlt (r1 r2 : regex)
| RRepeat (lo : nat) (hi : option nat) (r : regex).

(** ** Reading a pattern

    A recursive-descent reader for the fragment of the pattern language
    that occurs in the sources: literals, backslash escapes, bracketed
    sets with ranges and negation, groups, alternation and the
    quantifiers [*], [+], [?], [{m}], [{m,n}]. *)

Definition ch (a : ascii) : N := N_of_ascii a.

Definition is_alnum (c : N) : bool := is_alpha c || is_digit c.

(** A decimal number at the head of [s]. *)
Fixpoint read_nat (acc : option nat) (s : pystr) : option nat * pystr :=
  match s with
  | c :: s' =>
    if is_digit c
    then read_nat (Some (10 * default O acc + N.to_nat (c - 48))%nat) s'
    else (acc, s)
  | [] => (acc, s)
  end.

(** The items of a set, up to and including the closing bracket. *)
Fixpoint read_items (fuel : nat) (s : pystr) : option (list set_item * pystr) :=
  match fuel with
  | O => None
  | S fuel' =>
    match s with
    | [] => None
    | c :: s1 =>
      if c =? ch "]" then Some ([], s1)
      else
        let item_rest :=
          if c =? ch "\" then
            match s1 with
            | e :: s2 =>
              if e =? ch "s" then Some (ISpace, s2)
              else if e =? ch "d" then Some (IDigit, s2)
              else if is_alnum e then None
              else Some (IChar e, s2)
            | [] => None
            end
          else
            match s1 with
            | d :: hi :: s3 =>
              if (d =? ch "-") && negb (hi =? ch "]")
              then Some (IRange c hi, s3)
              else Some (IChar c, s1)
            | _ => Some (IChar c, s1)
            end in
        '(item, rest) ← item_rest;
        '(items, rest') ← read_items fuel' rest;
        Some (item :: items, rest')
    end
  end.

(** A quantifier applied to the atom [r], if one follows. *)
Definition read_quantifier (r : regex) (s : pystr) : option (regex * pystr) :=
  match s with
  | c :: s1 =>
    if c =? ch "*" then Some (RRepeat 0 None r, s1)
    else if c =? ch "+" then Some (RRepeat 1 None r, s1)
    else if c =? ch "?" then Some (RRepeat 0 (Some 1%nat) r, s1)
    else if c =? ch "{" then
      match read_nat None s1 with
      | (Some lo, c2 :: s2) =>
        if c2 =? ch "}" then Some (RRepeat lo (Some lo) r, s2)
        else if c2 =? ch "," then
          match read_nat None s2 with
          | (Some hi, c3 :: s3) =>
            if c3 =? ch "}" then Some (RRepeat lo (Some hi) r, s3) else None
          | _ => None
          end
        else None
      | _ => None
      end
    else Some (r, s)
  | [] => Some (r, s)
  end.

Fixpoint read_alt (fuel : nat) (s : pystr) : option (regex * pystr) :=
  match fuel with
  | O => None
  | S fuel' =>
    '(r1, s1) ← read_seq fuel' s;
    match s1 with
    | c :: s2 =>
      if c =? ch "|"
      then '(r2, s3) ← read_alt fuel' s2; Some (RAlt r1 r2, s3)
      else Some (r1, s1)
    | [] => Some (r1, s1)
    end
  end
with read_seq (fuel : nat) (s : pystr) : option (regex * pystr) :=
  match fuel with
  | O => None
  | S fuel' =>
    match s with
    | [] => Some (REmpty, s)
    | c :: _ =>
      if (c =? ch "|") || (c =? ch ")") then Some (REmpty, s)
      else
        '(a, s1) ← read_atom fuel' s;
        '(q, s2) ← read_quantifier a s1;
        '(r, s3) ← read_seq fuel' s2;
        Some (match r with REmpty => q | _ => RSeq q r end, s3)
    end
  end
with read_atom (fuel : nat) (s : pystr) : option (regex * pystr) :=
  match fuel with
  | O => None
  | S fuel' =>
    match s with
    | [] => None
    | c :: s1 =>
      if c =? ch "(" then
        let body :=
          match s1 with
          | q :: k :: s2 =>
            if (q =? ch "?") && (k =? ch ":") then s2 else s1
          | _ => s1
          end in
        '(r, s3) ← read_alt fuel' body;
        match s3 with
        | c' :: s4 => if c' =? ch ")" then Some (r, s4) else None
        | [] => None
        end
      else if c =? ch "[" then
        let '(neg, body) :=
          match s1 with
          | n :: s2 => if n =? ch "^" then (true, s2) else (false, s1)
          | [] => (false, s1)
          end in
        '(items, s3) ← read_items (length body) body;
        Some (RSet neg items, s3)
      else if c =? ch "\" then
        match s1 with
        | e :: s2 =>
          if e =? ch "b" then Some (RBoundary, s2)
          else if e =? ch "s" then Some (RSet false [ISpace], s2)
          else if e =? ch "d" then Some (RSet false [IDigit], s2)
          else if is_alnum e then None
          else Some (RChar e, s2)
        | [] => None
        end
      else if (c =? ch "*") || (c =? ch "+") || (c =? ch "?") || (c =? ch ".")
              || (c =? ch "^") || (c =? ch "$") || (c =? ch "{")
      then None
      else Some (RChar c, s1)
    end
  end.

(** [re.compile]: [None] stands for [re.error] and for a pattern outside
    the fragment above. *)
Definition compile (pattern : pystr) : option regex :=
  match read_alt (3 * S (length pattern)) pattern with
  | Some (r, []) => Some r
  | _ => None
  end.

(** [re.escape]: a backslash before every special character. *)
Definition special : pystr := str "()[]{}?*+-|^$\.&~# "%string ++ [9; 10; 11; 12; 13].

Definition escape (s : pystr) : pystr :=
  flat_map (fun c => if bool_decide (c ∈ special) then [ch "\"; c] else [c]) s.

(** ** Matching

    A backtracking matcher in continuation-passing style, trying
    alternatives from left to right and repetitions longest first, as
    [re] does.  [prev] is the character before the current position
    (needed by [\b]), [s] the text from the current position on; the
    continuation receives both at the end of the sub-match. *)

Definition is_word (c : N) : bool := is_alnum c || (c =? 95).

Definition is_word_opt (c : option N) : bool :=
  match c with Some c => is_word c | None => false end.

Definition item_matches (i : set_item) (c : N) : bool :=
  match i with
  | IChar a => a =? c
  | IRange lo hi => (lo <=? c) && (c <=? hi)
  | ISpace => isspace c
  | IDigit => is_digit c
  end.

(** With [re.IGNORECASE] a character is in a set when one of its case
    variants is, and equals a literal when both agree after case
    folding. *)
Definition in_items (ignorecase : bool) (items : list set_item) (c : N) : bool :=
  existsb (fun i =>
    item_matches i c
    || (ignorecase && (item_matches i (lower_char c) || item_matches i (upper_char c))))
    items.

Definition char_matches (ignorecase : bool) (a c : N) : bool :=
  if ignorecase then lower_char a =? lower_char c else a =? c.

Section Matcher.
Variable ignorecase : bool.
Context {R : Type}.

Fixpoint rmatch (r : regex) (prev : option N) (s : pystr)
    (k : option N -> pystr -> option R) {struct r} : option R :=
  match r with
  | RChar a =>
    match s with
    | c :: s' => if char_matches ignorecase a c then k (Some c) s' else None
    | [] => None
    end
  | RSet neg items =>
    match s with
    | c :: s' =>
      if xorb neg (in_items ignorecase items c) then k (Some c) s' else None
    | [] => None
    end
  | RBoundary =>
    if xorb (is_word_opt prev) (is_word_opt (head s)) then k prev s else None
  | REmpty => k prev s
  | RSeq r1 r2 => rmatch r1 prev s (fun p' s' => rmatch r2 p' s' k)
  | RAlt r1 r2 =>
    match rmatch r1 prev s k with
    | Some x => Some x
    | None => rmatch r2 prev s k
    end
  | RRepeat lo hi body =>
    (** One more iteration first (greedy); when that fails, stop here if
        [lo] iterations were made.  An iteration must consume input, so
        at most [length s] iterations succeed and [fuel] never runs
        out. *)
    (fix loop (fuel lo : nat) (hi : option nat) (prev : option N) (s : pystr)
         {struct fuel} : option R :=
       let stop := match lo with O => k prev s | S _ => None end in
       match fuel with
       | O => stop
       | S fuel' =>
         match hi with
         | Some O => stop
         | _ =>
           match rmatch body prev s (fun p' s' =>
                   if (length s' <? length s)%nat
                   then loop fuel' (pred lo) (pred <$> hi) p' s'
                   else None) with
           | Some x => Some x
           | None => stop
           end
         end
       end) (S (length s)) lo hi prev s
  end.
End Matcher.

(** The flags the program passes.  [DOTALL] changes the meaning of the
    wildcard [.] only, which none of the patterns uses (the reader rejects
    it), so matching depends on [IGNORECASE] alone. *)
Inductive flag := IGNORECASE | DOTALL.

Global Instance flag_eq_dec : EqDecision flag.
Proof. solve_decision. Defined.

Definition ignorecase_of (flags : list flag) : bool :=
  bool_decide (IGNORECASE ∈ flags).

(** A match starting exactly at the current position: the text that
    follows the match. *)
Definition match_here (ignorecase : bool) (r : regex) (prev : option N) (s : pystr)
  : option pystr :=
  rmatch ignorecase r prev s (fun _ rest => Some rest).

(** The leftmost match at or after the current position, as the matched
    text and the text that follows it. *)
Fixpoint search_from (ignorecase : bool) (r : regex) (prev : option N) (s : pystr)
  : option (pystr * pystr) :=
  match match_here ignorecase r prev s with
  | Some rest => Some (take (length s - length rest) s, rest)
  | None =>
    match s with
    | [] => None
    | c :: s' => search_from ignorecase r (Some c) s'
    end
  end.

(** Successive non-overlapping matches.  After a non-empty match the scan
    resumes where it ended; after an empty one it moves on by one
    character (no pattern of the program matches the empty string). *)
Fixpoint findall_go (fuel : nat) (ignorecase : bool) (r : regex)
    (prev : option N) (s : pystr) : list pystr :=
  match fuel with
  | O => []
  | S fuel' =>
    match search_from ignorecase r prev s with
    | None => []
    | Some (m, rest) =>
      m :: match m with
           | [] =>
             match rest with
             | [] => []
             | c :: rest' => findall_go fuel' ignorecase r (Some c) rest'
             end
           | _ :: _ => findall_go fuel' ignorecase r (last m) rest
           end
    end
  end.

(** [re.findall(pattern, text, flags)] for a pattern without capturing
    groups: the list of matched texts. *)
Definition findall (pattern text : pystr) (flags : list flag) : list pystr :=
  match compile pattern with
  | Some r => findall_go (S (length text)) (ignorecase_of flags) r None text
  | None => []
  end.

(** [re.search(pattern, text, flags)]: the text of the leftmost match. *)
Definition search (pattern text : pystr) (flags : list flag) : option pystr :=
  r ← compile pattern;
  fst <$> search_from (ignorecase_of flags) r None text.

End Re.

(* ===================================================================== *)
(** * Iteration order of a Python [set]                                   *)
(* ===================================================================== *)

(** The elements of a list in the order of their first occurrence. *)
Definition first_seen (xs : list pystr) : list pystr :=
  reverse (remove_dups (reverse xs)).

(** [list(set(xs))] enumerates the distinct elements of [xs] in an order
    that the language leaves open (it depends on string hashing).  The
    program is therefore modelled for every enumeration [list_of_set]
    that
      - has no duplicates,
      - has exactly the elements of [xs], and
      - depends only on the sequence of first insertions (adding an
        element that is already present leaves a set unchanged). *)
Record SetOrder := {
  list_of_set : list pystr -> list pystr;
  list_of_set_NoDup : ∀ xs, NoDup (list_of_set xs);
  list_of_set_elem : ∀ xs x, x ∈ list_of_set xs ↔ x ∈ xs;
  list_of_set_first_seen : ∀ xs, list_of_set xs = list_of_set (first_seen xs)
}.

(* ===================================================================== *)
(** * [backend/api/routers/entities.py]                                   *)
(* ===================================================================== *)

Module Entities.

(** An entity dict: category name to list of items. *)
Abbreviation entity_dict := (gmap pystr (list pystr)).

(** [d.get(key, [])]. *)
Definition get (d : entity_dict) (key : pystr) : list pystr :=
  default [] (d !! key).

Definition categories : list pystr :=
  [str "parties"; str "dates"; str "monetary_values"; str "obligations";
   str "legal_terms"].

(** [item and item.strip()] as a condition. *)
Definition non_blank (item : pystr) : bool :=
  truthy item && truthy (strip item).

Section WithSetOrder.
Variable O : SetOrder.

(** The pattern list of [extract_parties]: person names, company names,
    company entities, legal party terms. *)
Definition party_patterns : list pystr :=
  [str "\b[A-Z][a-z]+ [A-Z][a-z]+(?:\s+[A-Z][a-z]+)*\b";
   str "\b[A-Z][A-Z\s&]+(?:LLC|Inc|Corp|Company|Ltd|LP|LLP)\b";
   str "(?:Company|Corporation|LLC|Inc|Ltd|LP|LLP)(?:\s+[A-Z][a-z]+)*";
   str "(?:Party|Parties|Client|Contractor|Employee|Employer|Lessor|Lessee)(?:\s+[A-Z][a-z]+)*"].

Definition extract_parties (text : pystr) : list pystr :=
  let parties :=
    flat_map (fun pattern => Re.findall pattern text [Re.IGNORECASE])
             party_patterns in
  take 5 (list_of_set O
    (map strip (List.filter (fun p => (3 <? length (strip p))%nat) parties))).

(** The pattern list of [extract_dates]: numeric dates (day first, year
    first), month-name dates (both orders), time periods. *)
Definition date_patterns : list pystr :=
  [str "\b\d{1,2}[/-]\d{1,2}[/-]\d{2,4}\b";
   str "\b\d{4}[/-]\d{1,2}[/-]\d{1,2}\b";
   str "\b(?:January|February|March|April|May|June|July|August|September|October|November|December)\s+\d{1,2},?\s+\d{4}\b";
   str "\b\d{1,2}\s+(?:January|February|March|April|May|June|July|August|September|October|November|December)\s+\d{4}\b";
   str "\b(?:within|after|before|during)\s+\d+\s+(?:days|months|years)\b"].

Definition extract_dates (text : pystr) : list pystr :=
  let dates :=
    flat_map (fun pattern => Re.findall pattern text [Re.IGNORECASE])
             date_patterns in
  take 5 (list_of_set O dates).

(** The pattern list of [extract_monetary_values]: dollar amounts,
    amounts in dollars, currency codes, finance keywords, rates. *)
Definition monetary_patterns : list pystr :=
  [str "\$[\d,]+(?:\.\d{2})?";
   str "\b\d+(?:,\d{3})*(?:\.\d{2})?\s*dollars?\b";
   str "\b(?:USD|EUR|GBP)\s*[\d,]+(?:\.\d{2})?\b";
   str "\b(?:salary|wage|fee|payment|compensation|amount)\s*:?\s*\$?[\d,]+(?:\.\d{2})?\b";
   str "\b(?:per|each|every)\s+(?:hour|month|year|week)\s*:?\s*\$?[\d,]+(?:\.\d{2})?\b"].

Definition extract_monetary_values (text : pystr) : list pystr :=
  let amounts :=
    flat_map (fun pattern => Re.findall pattern text [Re.IGNORECASE])
             monetary_patterns in
  take 5 (list_of_set O amounts).

(** The pattern list of [extract_obligations]: modal verbs, direct
    obligation terms, party-specific obligations. *)
Definition obligation_patterns : list pystr :=
  [str "(?:shall|must|will|agrees? to|required to|responsible for)\s+[^.]+[.]";
   str "(?:obligation|duty|responsibility|requirement)\s+[^.]+[.]";
   str "(?:Party|Employee|Contractor|Company)\s+(?:shall|must|will|agrees?)\s+[^.]+[.]"].

Definition extract_obligations (text : pystr) : list pystr :=
  let obligations :=
    flat_map (fun pattern =>
                map strip (Re.findall pattern text [Re.IGNORECASE; Re.DOTALL]))
             obligation_patterns in
  let cleaned_obligations :=
    List.filter (fun obs => (20 <? length obs)%nat && (length obs <? 200)%nat)
                obligations in
  take 5 cleaned_obligations.

Definition legal_terms : list pystr :=
  [str "confidentiality"; str "non-disclosure"; str "liability";
   str "indemnification"; str "breach";
   str "termination"; str "jurisdiction"; str "governing law";
   str "force majeure"; str "arbitration";
   str "intellectual property"; str "copyright"; str "trademark";
   str "patent"; str "trade secret";
   str "warranty"; str "guarantee"; str "representation"; str "covenant";
   str "consideration"].

Definition extract_legal_terms (text : pystr) : list pystr :=
  let found_terms :=
    map title
      (List.filter
         (fun term =>
            bool_decide (is_Some
              (Re.search (str "\b" ++ Re.escape term ++ str "\b") text
                         [Re.IGNORECASE])))
         legal_terms) in
  take 8 found_terms.

Definition extract_entities_rule_based (text : pystr) : entity_dict :=
  <[str "legal_terms" := extract_legal_terms text]>
 (<[str "obligations" := extract_obligations text]>
 (<[str "monetary_values" := extract_monetary_values text]>
 (<[str "dates" := extract_dates text]>
 (<[str "parties" := extract_parties text]> ∅)))).

(** The loop body of [merge_entity_results] for one category. *)
Definition merge_category (ai_entities rule_entities : entity_dict)
    (merged : entity_dict) (category : pystr) : entity_dict :=
  let ai_items := get ai_entities category in
  let rule_items := get rule_entities category in
  let combined := list_of_set O (ai_items ++ rule_items) in
  let combined := List.filter non_blank combined in
  <[category := take 10 combined]> merged.

Definition merge_entity_results (ai_entities rule_entities : entity_dict)
  : entity_dict :=
  foldl (merge_category ai_entities rule_entities) ∅ categories.

End WithSetOrder.

End Entities.

(* ===================================================================== *)
(** * Python floats                                                       *)
(* ===================================================================== *)

Module PyFloat.

Abbreviation float := spec_float.

Definition prec : Z := 53.
Definition emax : Z := 1024.

(** The binary64 value nearest to [m / 10^k] (ties to even): the value of
    the decimal numeral with digits [m] of which [k] follow the point. *)
Definition of_decimal (m : N) (k : nat) : float :=
  match m with
  | N0 => S754_zero false
  | Npos p =>
    let '(q, e, l) :=
      SFdiv_core_binary prec emax (Zpos p) 0 (10 ^ Z.of_nat k)%Z 0 in
    binary_round_aux prec emax false q e l
  end.

(** The number denoted by a string of decimal digits. *)
Definition digits_value (ds : pystr) : N :=
  foldl (fun acc d => 10 * acc + (d - 48)) 0 ds.

(** [float(s)] for a numeral of the form digits, optionally followed by a
    point and further digits.  Every other string is answered with
    [None], which stands for [ValueError]. *)
Definition of_str (s : pystr) : option float :=
  match split s (str ".") with
  | [i] =>
    if forallb is_digit i && truthy i
    then Some (of_decimal (digits_value i) 0) else None
  | [i; f] =>
    if forallb is_digit i && truthy i && forallb is_digit f
    then Some (of_decimal (digits_value (i ++ f)) (length f)) else None
  | _ => None
  end.

(** A float literal of the source. *)
Definition lit (s : string) : float := default S754_nan (of_str (str s)).

(** [x / y] for a non-zero [y], and [x > y]. *)
Definition div (x y : float) : float := SFdiv prec emax x y.
Definition gt (x y : float) : bool := SFltb y x.

End PyFloat.

(* ===================================================================== *)
(** * [backend/services/granite_llm.py]                                   *)
(* ===================================================================== *)

Module Granite.

Import Entities.

(** ** Exceptions and the environment *)

(** An exception is represented by its message ([str(e)]). *)
Abbreviation exn := pystr.

Inductive result (A : Type) :=
| Ok (a : A)
| Raise (e : exn).
Arguments Ok {A} a.
Arguments Raise {A} e.

(** The objects obtained from the model host.  Only what the service
    reads from them is recorded. *)
Record Tokenizer := { eos_token_id : option Z }.
Inductive Model := model_handle (id : nat).
Inductive Pipeline := pipeline_handle (id : nat).

(** The keyword arguments of one call of the text-generation pipeline. *)
Record GenRequest := {
  text_inputs : pystr;
  max_new_tokens : Z;
  temperature : PyFloat.float;
  do_sample : bool;
  top_p : PyFloat.float;
  repetition_penalty : PyFloat.float;
  pad_token_id : option Z;
  num_return_sequences : Z
}.

(** What one attempt to acquire the model finds: the outcome of each of
    the three acquisition calls, were it reached. *)
Record LoadOutcome := {
  tokenizer_from_pretrained : result Tokenizer;
  model_from_pretrained : result Model;
  make_pipeline : result Pipeline
}.

(** The environment: what the [n]-th acquisition attempt and the [n]-th
    pipeline call of the process answer.  Sampling makes the pipeline
    non-deterministic, hence the index. *)
Record World := {
  acquire : nat -> LoadOutcome;
  run_pipeline : nat -> GenRequest -> result (list (gmap pystr pystr))
}.

(** ** The service object *)

Record GraniteLLMService := {
  model : option Model;
  tokenizer : option Tokenizer;
  pipeline : option Pipeline;
  model_loaded : bool
}.

(** The state of the process: the service object, together with a record
    of the interactions with the environment so far (the number of calls
    of [_initialize_model] and the requests sent to the pipeline). *)
Record Sys := {
  self : GraniteLLMService;
  load_attempts : nat;
  issued : list GenRequest
}.

(** [GraniteLLMService.__init__] (authentication against the model host
    aside): nothing is loaded. *)
Definition __init__ : GraniteLLMService :=
  {| model := None; tokenizer := None; pipeline := None; model_loaded := false |}.

Definition initial : Sys :=
  {| self := __init__; load_attempts := 0; issued := [] |}.

(** ** Computations: state, environment and exceptions *)

Definition M (A : Type) : Type := World -> Sys -> result A * Sys.

Global Instance M_ret : MRet M := fun A a _ s => (Ok a, s).

Global Instance M_bind : MBind M := fun A B f m w s =>
  match m w s with
  | (Ok a, s') => f a w s'
  | (Raise e, s') => (Raise e, s')
  end.

Definition raise {A} (e : exn) : M A := fun _ s => (Raise e, s).

(** [try: body except Exception as e: handler e].  What [body] did to the
    state before raising stays done. *)
Definition try_except {A} (body : M A) (handler : exn -> M A) : M A :=
  fun w s =>
    match body w s with
    | (Ok a, s') => (Ok a, s')
    | (Raise e, s') => handler e w s'
    end.

Definition get_self : M GraniteLLMService := fun _ s => (Ok (self s), s).

Definition set_self (f : GraniteLLMService -> GraniteLLMService) : M unit :=
  fun _ s =>
    (Ok tt, {| self := f (self s); load_attempts := load_attempts s;
               issued := issued s |}).

Definition lift_result {A} (r : result A) : M A := fun _ s => (r, s).

(** The environment's answer to the acquisition attempt now starting. *)
Definition begin_load : M LoadOutcome := fun w s =>
  (Ok (acquire w (load_attempts s)),
   {| self := self s; load_attempts := S (load_attempts s); issued := issued s |}).

(** [self.pipeline(...)]: the request is sent and the answer received. *)
Definition call_pipeline (req : GenRequest) : M (list (gmap pystr pystr)) :=
  fun w s =>
    (run_pipeline w (length (issued s)) req,
     {| self := self s; load_attempts := load_attempts s;
        issued := issued s ++ [req] |}).

(** ** Model life cycle *)

Definition _initialize_model : M unit :=
  try_except
    (o ← begin_load;
     t ← lift_result (tokenizer_from_pretrained o);
     _ ← set_self (fun g => {| model := model g; tokenizer := Some t;
                               pipeline := pipeline g;
                               model_loaded := model_loaded g |});
     m ← lift_result (model_from_pretrained o);
     _ ← set_self (fun g => {| model := Some m; tokenizer := tokenizer g;
                               pipeline := pipeline g;
                               model_loaded := model_loaded g |});
     p ← lift_result (make_pipeline o);
     _ ← set_self (fun g => {| model := model g; tokenizer := tokenizer g;
                               pipeline := Some p;
                               model_loaded := model_loaded g |});
     set_self (fun g => {| model := model g; tokenizer := tokenizer g;
                           pipeline := pipeline g; model_loaded := true |}))
    (fun e =>
     set_self (fun g => {| model := model g; tokenizer := tokenizer g;
                           pipeline := pipeline g; model_loaded := false |})).

Definition _ensure_model_loaded : M unit :=
  g ← get_self;
  if negb (model_loaded g) then _initialize_model else mret tt.

(** ** Generation *)

Definition msg_model_not_available : pystr :=
  str "Model not available. Please check system requirements and try again.".

Definition msg_too_short : pystr :=
  str "I understand your question. Due to current processing constraints, please try a more specific question or check back shortly.".

Definition msg_generation_error : pystr :=
  str "I'm experiencing some technical difficulties with text generation. Please try again with a simpler question.".

Definition msg_apology : pystr :=
  str "I apologize, but I'm experiencing technical difficulties. Please try again later.".

(** The turn marker that ends the echoed prompt. *)
Definition assistant_marker : pystr := str "<|assistant|>" ++ [LF].

Definition generate_response (prompt : pystr) (max_length : Z)
    (temperature : PyFloat.float) : M pystr :=
  try_except
    (_ ← _ensure_model_loaded;
     g ← get_self;
     if negb (model_loaded g) || negb (bool_decide (is_Some (pipeline g)))
     then mret msg_model_not_available
     else
       let formatted_prompt :=
         str "<|user|>" ++ [LF] ++ prompt ++ [LF] ++ str "<|assistant|>" ++ [LF] in
       try_except
         (eos ← match tokenizer g with
                | Some t => mret (eos_token_id t)
                | None => raise (str "'NoneType' object has no attribute 'eos_token_id'")
                end;
          outputs ← call_pipeline
            {| text_inputs := formatted_prompt;
               max_new_tokens := Z.min max_length 100;
               temperature := PyFloat.lit "0.3";
               do_sample := true;
               top_p := PyFloat.lit "0.8";
               repetition_penalty := PyFloat.lit "1.05";
               pad_token_id := eos;
               num_return_sequences := 1 |};
          first ← match outputs with
                  | o :: _ => mret o
                  | [] => raise (str "list index out of range")
                  end;
          full_response ← match first !! str "generated_text" with
                          | Some t => mret t
                          | None => raise (str "'generated_text'")
                          end;
          let response := strip (List.last (split full_response assistant_marker) []) in
          if negb (truthy response) || (length response <? 10)%nat
          then mret msg_too_short
          else mret response)
         (fun gen_error => mret msg_generation_error))
    (fun e => mret msg_apology).

Arguments generate_response : simpl never.

(** The default values of the optional parameters of
    [generate_response]. *)
Definition default_temperature : PyFloat.float := PyFloat.lit "0.7".

(** ** Derived operations *)

(** The prompt of [simplify_clause]. *)
Definition simplify_prompt (clause_text : pystr) : pystr :=
  str "Please simplify the following legal clause into plain, everyday language that a non-lawyer can easily understand. Keep the essential meaning but make it clear and simple:

Legal Clause: " ++ clause_text ++ str "

Simplified Version:".

Definition simplify_clause (clause_text : pystr) : M pystr :=
  try_except
    (_ ← _ensure_model_loaded;
     g ← get_self;
     if negb (model_loaded g)
     then mret (str "Simplified: " ++ take 200 clause_text
                  ++ str "... (AI model not available)")
     else
       let prompt := simplify_prompt clause_text in
       generate_response prompt 300 default_temperature)
    (fun e => mret (str "Error simplifying clause: " ++ e)).

Definition empty_entities : entity_dict :=
  <[str "legal_terms" := []]>
 (<[str "obligations" := []]>
 (<[str "monetary_values" := []]>
 (<[str "dates" := []]>
 (<[str "parties" := []]> ∅)))).

(** [entities[key].extend(items)]; [KeyError] when [key] is [None] or not
    a key of the dict. *)
Definition extend (entities : entity_dict) (key : option pystr)
    (items : list pystr) : result entity_dict :=
  match key with
  | Some k =>
    match entities !! k with
    | Some l => Ok (<[k := l ++ items]> entities)
    | None => Raise k
    end
  | None => Raise (str "None")
  end.

(** The parser state: the dict under construction and the category
    cursor. *)
Definition parse_state : Type := entity_dict * option pystr.

(** The body shared by the five header branches: the cursor moves to
    [category], and the items that follow the header on its own line are
    added, unless they are the placeholder of the prompt. *)
Definition header_branch (entities : entity_dict) (line header placeholder
    category : pystr) : result parse_state :=
  let current_category := Some category in
  let items := strip (replace line header []) in
  if truthy items && negb (eqb items placeholder)
  then
    match extend entities current_category
            (map strip (List.filter (fun item => truthy (strip item))
                                    (split items (str ",")))) with
    | Ok entities' => Ok (entities', current_category)
    | Raise e => Raise e
    end
  else Ok (entities, current_category).

(** One iteration of the line loop. *)
Definition parse_entity_line (st : parse_state) (line : pystr) : result parse_state :=
  let '(entities, current_category) := st in
  let line := strip line in
  let header := header_branch entities line in
  if startswith line (str "PARTIES:") then
    header (str "PARTIES:")
           (str "[list the individuals, companies, or organizations involved]")
           (str "parties")
  else if startswith line (str "DATES:") then
    header (str "DATES:") (str "[list all dates mentioned]") (str "dates")
  else if startswith line (str "MONETARY VALUES:") then
    header (str "MONETARY VALUES:")
           (str "[list all money amounts, fees, or financial terms]")
           (str "monetary_values")
  else if startswith line (str "OBLIGATIONS:") then
    header (str "OBLIGATIONS:")
           (str "[list key duties, responsibilities, or requirements]")
           (str "obligations")
  else if startswith line (str "LEGAL TERMS:") then
    header (str "LEGAL TERMS:")
           (str "[list important legal concepts or technical terms]")
           (str "legal_terms")
  else if (bool_decide (is_Some current_category) && startswith line (str "-"))
          || startswith line (str "•") then
    let item := strip (lstrip_chars (str "-•") line) in
    if truthy item then
      match extend entities current_category [item] with
      | Ok entities' => Ok (entities', current_category)
      | Raise e => Raise e
      end
    else Ok st
  else Ok st.

(** The line loop inside its [try]: an exception ends the loop and leaves
    the dict as it was when the exception was raised (no branch changes
    the dict before raising). *)
Fixpoint parse_entity_lines (st : parse_state) (lines : list pystr) : entity_dict :=
  match lines with
  | [] => fst st
  | line :: rest =>
    match parse_entity_line st line with
    | Ok st' => parse_entity_lines st' rest
    | Raise _ => fst st
    end
  end.

Definition parse_entities (response : pystr) : entity_dict :=
  parse_entity_lines (empty_entities, None) (split response [LF]).

(** The prompt of [extract_entities_with_ai]. *)
Definition entities_prompt (text : pystr) : pystr :=
  str "Analyze the following legal document and extract key information. Return the results in this exact format:

PARTIES: [list the individuals, companies, or organizations involved]
DATES: [list all dates mentioned]
MONETARY VALUES: [list all money amounts, fees, or financial terms]
OBLIGATIONS: [list key duties, responsibilities, or requirements]
LEGAL TERMS: [list important legal concepts or technical terms]

Document: " ++ take 2000 text ++ str "...

Analysis:".

Definition extract_entities_with_ai (text : pystr) : M entity_dict :=
  try_except
    (_ ← _ensure_model_loaded;
     g ← get_self;
     if negb (model_loaded g)
     then mret empty_entities
     else
       let prompt := entities_prompt text in
       response ← generate_response prompt 400 default_temperature;
       mret (parse_entities response))
    (fun e => mret empty_entities).

(** ** Classification *)

Record Classification := {
  type : pystr;
  confidence : PyFloat.float;
  description : pystr;
  key_characteristics : list pystr
}.

(** The [Confidence:] branch: the first decimal numeral of the value
    text, divided by 100 when it exceeds 1.0; the bare [except] keeps the
    previous value when the conversion fails. *)
Definition parse_confidence (conf_str : pystr) (prior : PyFloat.float)
  : PyFloat.float :=
  match Re.search (str "(\d+\.?\d*)") conf_str [] with
  | Some group1 =>
    match PyFloat.of_str group1 with
    | Some conf_val =>
      if PyFloat.gt conf_val (PyFloat.lit "1.0")
      then PyFloat.div conf_val (PyFloat.lit "100.0")
      else conf_val
    | None => prior
    end
  | None => prior
  end.

(** One iteration of the line loop of the classification parser. *)
Definition parse_classification_line (result : Classification) (line : pystr)
  : Classification :=
  let line := strip line in
  if startswith line (str "Type:") then
    let doc_type := strip (replace line (str "Type:") []) in
    if truthy doc_type
    then {| type := doc_type; confidence := confidence result;
            description := description result;
            key_characteristics := key_characteristics result |}
    else result
  else if startswith line (str "Confidence:") then
    let conf_str := strip (replace line (str "Confidence:") []) in
    {| type := type result;
       confidence := parse_confidence conf_str (confidence result);
       description := description result;
       key_characteristics := key_characteristics result |}
  else if startswith line (str "Description:") then
    let desc := strip (replace line (str "Description:") []) in
    if truthy desc
    then {| type := type result; confidence := confidence result;
            description := desc;
            key_characteristics := key_characteristics result |}
    else result
  else if startswith line (str "Key Characteristics:") then
    result
  else if startswith line (str "-") || startswith line (str "•") then
    let char := strip (lstrip_chars (str "-•") line) in
    if truthy char
    then {| type := type result; confidence := confidence result;
            description := description result;
            key_characteristics := key_characteristics result ++ [char] |}
    else result
  else result.

Definition default_classification : Classification :=
  {| type := str "General Legal Document";
     confidence := PyFloat.lit "0.5";
     description := str "Legal document analysis";
     key_characteristics := [] |}.

Definition parse_classification (response : pystr) : Classification :=
  foldl parse_classification_line default_classification (split response [LF]).

(** The prompt of [classify_document_with_ai]. *)
Definition classification_prompt (text : pystr) : pystr :=
  str "Analyze the following legal document and classify its type. Choose from these categories:
- Non-Disclosure Agreement (NDA)
- Employment Contract
- Service Agreement
- Lease Agreement
- Purchase Agreement
- Partnership Agreement
- License Agreement
- General Legal Document

Also provide confidence level (0.0 to 1.0) and key characteristics.

Document excerpt: " ++ take 1500 text ++ str "...

Classification:
Type:
Confidence:
Description:
Key Characteristics:".

Definition classify_document_with_ai (text : pystr) : M Classification :=
  try_except
    (_ ← _ensure_model_loaded;
     g ← get_self;
     if negb (model_loaded g)
     then mret {| type := str "General Legal Document";
                  confidence := PyFloat.lit "0.3";
                  description := str "AI model not available for detailed classification";
                  key_characteristics := [str "Document contains legal terminology"] |}
     else
       let prompt := classification_prompt text in
       response ← generate_response prompt 300 default_temperature;
       mret (parse_classification response))
    (fun e =>
     mret {| type := str "General Legal Document";
             confidence := PyFloat.lit "0.3";
             description := str "Classification error: " ++ e;
             key_characteristics := [str "Document analysis failed"] |}).

(** ** Question answering *)

Definition _try_simple_answer (question context : pystr) : pystr :=
  let question_lower := lower question in
  if contains question_lower (str "what is") || contains question_lower (str "define") then
    if contains question_lower (str "nda") || contains question_lower (str "non-disclosure") then
      str "An NDA (Non-Disclosure Agreement) is a legal contract that prevents parties from sharing confidential information with third parties."
    else if contains question_lower (str "contract") then
      str "A contract is a legally binding agreement between two or more parties that creates mutual obligations enforceable by law."
    else if contains question_lower (str "clause") then
      str "A clause is a specific provision or section within a legal document that addresses a particular aspect of the agreement."
    else []
  else if contains question_lower (str "how to") then
    if contains question_lower (str "simplify") then
      str "To simplify legal language: 1) Replace complex terms with everyday words, 2) Break long sentences into shorter ones, 3) Use active voice, 4) Define technical terms."
    else []
  else if contains question_lower (str "summarize") then
    if truthy context then
      let sentences := take 3 (split context (str ".")) in
      str "Summary: " ++ join (str ". ") sentences
        ++ str "... (This is a basic summary. Upload a document for detailed AI analysis.)"
    else
      str "Please upload a document first, then I can provide a detailed summary using AI analysis."
  else [].

Definition _fallback_answer (question context : pystr) : pystr :=
  let question_lower := lower question in
  if contains question_lower (str "summarize") || contains question_lower (str "summary") then
    str "I can help summarize documents, but the AI model is currently loading. Please try again in a few moments, or upload a document for rule-based analysis."
  else if contains question_lower (str "parties") || contains question_lower (str "who") then
    str "To identify parties in a legal document, look for names of individuals, companies, or organizations mentioned in the beginning sections or signature areas."
  else if contains question_lower (str "obligation") || contains question_lower (str "responsibility") then
    str "Legal obligations are typically found in sections containing words like 'shall', 'must', 'agrees to', or 'responsible for'."
  else if contains question_lower (str "date") || contains question_lower (str "when") then
    str "Important dates in legal documents include effective dates, expiration dates, and deadlines. Look for date formats like MM/DD/YYYY or spelled-out dates."
  else
    str "I'm still loading the AI model for detailed analysis. For immediate help, try uploading a document to use our rule-based analysis features.".

(** The prompt of [answer_question]. *)
Definition question_prompt (question context : pystr) : pystr :=
  str "You are ClauseWise AI, a legal document analysis assistant. Answer the following question about legal concepts or document analysis.

Context: " ++ (if truthy context then take 1000 context
               else str "General legal knowledge") ++ str "

Question: " ++ question ++ str "

Answer:".

Definition answer_question (question context : pystr) : M pystr :=
  try_except
    (let simple_answers := _try_simple_answer question context in
     if truthy simple_answers then mret simple_answers
     else
       _ ← _ensure_model_loaded;
       g ← get_self;
       if negb (model_loaded g)
       then mret (_fallback_answer question context)
       else
         let prompt := question_prompt question context in
         generate_response prompt 200 default_temperature)
    (fun e => mret (_fallback_answer question context)).

End Granite.

(* ===================================================================== *)
(** * The entity endpoint ([extract_entities] of [entities.py])           *)
(* ===================================================================== *)

Module Router.

Import Entities Granite.

(** The handler of [POST /]: the AI result merged with the rule-based
    one, or the rule-based one alone when the AI path raises.  The
    response body is [{"entities": ...}]; its single value is returned
    here. *)
Definition extract_entities (O : SetOrder) (text : pystr) : M entity_dict :=
  try_except
    (ai_entities ← extract_entities_with_ai text;
     let rule_entities := extract_entities_rule_based O text in
     let combined_entities := merge_entity_results O ai_entities rule_entities in
     mret combined_entities)
    (fun e => mret (extract_entities_rule_based O text)).

End Router.

(* ===================================================================== *)
(** * A concrete iteration order                                          *)
(* ===================================================================== *)

(** Enumerating a set in the order of first insertion is one admissible
    order; it is used to run the model on concrete inputs. *)
Definition insertion_order : SetOrder.
Proof.
  refine {| list_of_set := first_seen |}; unfold first_seen.
  - intros xs. rewrite reverse_Permutation. apply NoDup_remove_dups.
  - intros xs x.
    by rewrite elem_of_reverse, elem_of_remove_dups, elem_of_reverse.
  - intros xs. rewrite reverse_involutive. f_equal.
    generalize (NoDup_remove_dups (reverse xs)).
    generalize (remove_dups (reverse xs)) as l.
    induction l as [|x l IH]; intros Hnd; [done|].
    apply NoDup_cons in Hnd as [Hx Hl]. simpl.
    destruct (decide_rel elem_of x l) as [Hin|_]; [by destruct Hx|].
    f_equal. by apply IH.
Defined.

(* ===================================================================== *)
(** * Properties of the reconciliation ([merge_entity_results])           *)
(* ===================================================================== *)

Module MergeProps.

Import Entities.

(** ** Lists *)

Lemma elem_of_bool_filter (f : pystr -> bool) (l : list pystr) (x : pystr) :
  x ∈ List.filter f l ↔ x ∈ l ∧ f x = true.
Proof. rewrite !list_elem_of_In. apply filter_In. Qed.

Lemma NoDup_bool_filter (f : pystr -> bool) (l : list pystr) :
  NoDup l → NoDup (List.filter f l).
Proof.
  induction 1 as [|x l Hx Hl IH]; simpl; [constructor|].
  destruct (f x); [|done].
  constructor; [|done].
  rewrite elem_of_bool_filter. tauto.
Qed.

Lemma bool_filter_all (f : pystr -> bool) (l : list pystr) :
  (∀ x, x ∈ l → f x = true) → List.filter f l = l.
Proof.
  induction l as [|x l IH]; intros Hall; simpl; [done|].
  rewrite (Hall x) by left.
  f_equal. apply IH. intros y Hy. apply Hall. by right.
Qed.

Lemma NoDup_take_list (n : nat) (l : list pystr) : NoDup l → NoDup (take n l).
Proof. intros Hnd. eapply sublist_NoDup; [exact Hnd|apply sublist_take]. Qed.

Lemma elem_of_take_list (n : nat) (l : list pystr) (x : pystr) :
  x ∈ take n l → x ∈ l.
Proof. apply subseteq_take. Qed.

(** A map that is the identity on a duplicate-free list keeps it
    duplicate-free. *)
Lemma NoDup_fmap_fixed (f : pystr -> pystr) (l : list pystr) :
  (∀ x, x ∈ l → f x = x) → NoDup l → NoDup (f <$> l).
Proof.
  intros Hfix Hnd.
  replace (f <$> l) with l; [done|].
  induction l as [|x l IH]; simpl; [done|].
  rewrite (Hfix x) by left. f_equal.
  apply IH; [|by apply NoDup_cons in Hnd as [_ ?]].
  intros y Hy. apply Hfix. by right.
Qed.

(** ** Iteration order *)

Lemma remove_dups_app_absorb (l1 l2 : list pystr) :
  (∀ x, x ∈ l1 → x ∈ l2) → remove_dups (l1 ++ l2) = remove_dups l2.
Proof.
  induction l1 as [|x l1 IH]; intros Hsub; simpl; [done|].
  destruct (decide_rel elem_of x (l1 ++ l2)) as [_|Hn].
  - apply IH. intros y Hy. apply Hsub. by right.
  - exfalso. apply Hn, elem_of_app. right. apply Hsub. by left.
Qed.

Lemma first_seen_twice (l : list pystr) : first_seen (l ++ l) = first_seen l.
Proof.
  unfold first_seen. rewrite reverse_app. f_equal.
  apply remove_dups_app_absorb. done.
Qed.

Lemma list_of_set_twice (O : SetOrder) (l : list pystr) :
  list_of_set O (l ++ l) = list_of_set O l.
Proof.
  rewrite (list_of_set_first_seen O (l ++ l)), first_seen_twice.
  symmetry. apply list_of_set_first_seen.
Qed.

(** ** The merged dict, key by key *)

(** The value [merge_category] stores under a category. *)
Definition merged_items (O : SetOrder) (A B : entity_dict) (category : pystr)
  : list pystr :=
  take 10 (List.filter non_blank (list_of_set O (get A category ++ get B category))).

Lemma merge_fold_lookup (O : SetOrder) (A B : entity_dict) (ks : list pystr)
    (m0 : entity_dict) (k : pystr) :
  foldl (merge_category O A B) m0 ks !! k =
    if decide (k ∈ ks) then Some (merged_items O A B k) else m0 !! k.
Proof.
  revert m0. induction ks as [|c ks IH]; intros m0; simpl.
  - done.
  - rewrite IH. unfold merge_category at 1.
    destruct (decide (k ∈ ks)) as [Hin|Hnin];
      destruct (decide (k ∈ c :: ks)) as [Hin'|Hnin']; try done.
    + destruct Hnin'. by right.
    + apply elem_of_cons in Hin' as [->|?]; [|done].
      by rewrite lookup_insert_eq.
    + rewrite lookup_insert_ne; [done|].
      intros ->. apply Hnin'. by left.
Qed.

Lemma merge_fold_dom (O : SetOrder) (A B : entity_dict) (ks : list pystr)
    (m0 : entity_dict) :
  dom (foldl (merge_category O A B) m0 ks) = list_to_set ks ∪ dom m0.
Proof.
  revert m0. induction ks as [|c ks IH]; intros m0; simpl.
  - by rewrite (left_id_L ∅ (∪)).
  - rewrite IH. unfold merge_category at 1.
    rewrite dom_insert_L, (assoc_L (∪)).
    by rewrite (comm_L (∪) (list_to_set ks)).
Qed.

Lemma merge_lookup (O : SetOrder) (A B : entity_dict) (category : pystr) :
  category ∈ categories →
  merge_entity_results O A B !! category = Some (merged_items O A B category).
Proof.
  intros Hin. unfold merge_entity_results.
  rewrite merge_fold_lookup. by case_decide.
Qed.

Lemma non_blank_spec (x : pystr) : non_blank x = true ↔ x ≠ [] ∧ strip x ≠ [].
Proof.
  unfold non_blank. rewrite andb_true_iff.
  destruct x; destruct (strip _); simpl; split; intros [??]; done.
Qed.

(** ** The reconciliation invariant *)

(** The dicts of the counterexample to trimming: one item and the same
    item preceded by a blank. *)
Definition padded_pair : entity_dict :=
  {[ str "parties" := [str "Acme Corp"; str " Acme Corp"] ]}.

(** C2, as stated, fails: deduplication compares the items as they are.
    Merging [padded_pair] with the empty dict keeps both spellings of the
    item although they are equal after trimming. *)
Lemma merge_keeps_untrimmed_duplicates :
  merge_entity_results insertion_order padded_pair ∅ !! str "parties"
    = Some [str "Acme Corp"; str " Acme Corp"]
  ∧ strip (str "Acme Corp") = strip (str " Acme Corp")
  ∧ ¬ NoDup (strip <$> [str "Acme Corp"; str " Acme Corp"]).
Proof.
  split; [by vm_compute|]. split; [by vm_compute|].
  intros Hnd. apply NoDup_cons in Hnd as [Hnotin _].
  apply Hnotin. vm_compute. left.
Qed.

(** C2 (amended): for every iteration order, every pair of entity dicts
    and every fixed category, the merged list is a subset of the union of
    the two input lists, has no two equal items (items are compared as
    they are, without trimming), contains no empty or whitespace-only
    item, has at most 10 items, and the merged dict has exactly the five
    category keys.  When the input items are already trimmed, no two
    merged items are equal after trimming either. *)
Theorem merge_entity_results_invariant (O : SetOrder) (A B : entity_dict)
    (category : pystr) :
  category ∈ categories →
  ∃ items,
    merge_entity_results O A B !! category = Some items
    ∧ (∀ x, x ∈ items → x ∈ get A category ∨ x ∈ get B category)
    ∧ NoDup items
    ∧ (∀ x, x ∈ items → x ≠ [] ∧ strip x ≠ [])
    ∧ (length items ≤ 10)%nat
    ∧ dom (merge_entity_results O A B) = list_to_set categories
    ∧ ((∀ x, x ∈ get A category ++ get B category → strip x = x) →
       NoDup (strip <$> items)).
Proof.
  intros Hin. exists (merged_items O A B category).
  assert (Hsub : ∀ x, x ∈ merged_items O A B category →
            x ∈ get A category ++ get B category ∧ non_blank x = true).
  { intros x Hx. apply elem_of_take_list, elem_of_bool_filter in Hx as [Hx Hnb].
    by apply list_of_set_elem in Hx. }
  assert (Hnd : NoDup (merged_items O A B category)).
  { apply NoDup_take_list, NoDup_bool_filter, list_of_set_NoDup. }
  split; [by apply merge_lookup|].
  split; [intros x Hx; by apply elem_of_app, Hsub|].
  split; [done|].
  split; [intros x Hx; by apply non_blank_spec, Hsub|].
  split; [unfold merged_items; rewrite length_take; lia|].
  split.
  - unfold merge_entity_results. rewrite merge_fold_dom, dom_empty_L.
    apply (right_id_L ∅ (∪)).
  - intros Htrim. apply NoDup_fmap_fixed; [|done].
    intros x Hx. by apply Htrim, Hsub.
Qed.

(** Two sample dicts. *)
Definition sample_ai : entity_dict :=
  {[ str "parties" := [str "John Smith"; str "Acme Corp"; str "  "] ]}.

Definition sample_rule : entity_dict :=
  {[ str "parties" := [str "Acme Corp"; str "Beta LLC"];
     str "dates" := [str "within 30 days"] ]}.

Lemma merge_entity_results_invariant_witness :
  ∃ items,
    merge_entity_results insertion_order sample_ai sample_rule !! str "parties"
      = Some items
    ∧ (∀ x, x ∈ items →
         x ∈ get sample_ai (str "parties") ∨ x ∈ get sample_rule (str "parties"))
    ∧ NoDup items
    ∧ (∀ x, x ∈ items → x ≠ [] ∧ strip x ≠ [])
    ∧ (length items ≤ 10)%nat
    ∧ dom (merge_entity_results insertion_order sample_ai sample_rule)
        = list_to_set categories
    ∧ ((∀ x, x ∈ get sample_ai (str "parties") ++ get sample_rule (str "parties") →
          strip x = x) →
       NoDup (strip <$> items)).
Proof.
  apply (merge_entity_results_invariant insertion_order sample_ai sample_rule
           (str "parties")).
  vm_compute. left.
Defined.

(** ** Self-merge *)

(** A dict whose only item is the empty string. *)
Definition blank_dict : entity_dict := {[ str "parties" := [ [] ] ]}.

(** C9, as stated, fails: self-merge also removes blank items, which
    deduplication keeps.  For [blank_dict] the merge yields the empty
    list, whereas the deduplicated input (under every iteration order)
    still holds its item. *)
Lemma self_merge_drops_blank_items :
  merge_entity_results insertion_order blank_dict blank_dict !! str "parties"
    = Some []
  ∧ take 10 (list_of_set insertion_order (get blank_dict (str "parties"))) = [ [] ].
Proof. split; by vm_compute. Qed.

(** C9 (amended): merging a dict with itself yields, for every fixed
    category, the deduplication of that category's list with the empty
    and whitespace-only items removed, capped at 10 items; when the list
    has no such item this is its deduplication capped at 10. *)
Theorem merge_self_idempotent (O : SetOrder) (A : entity_dict) (category : pystr) :
  category ∈ categories →
  merge_entity_results O A A !! category
    = Some (take 10 (List.filter non_blank (list_of_set O (get A category))))
  ∧ ((∀ x, x ∈ get A category → non_blank x = true) →
     merge_entity_results O A A !! category
       = Some (take 10 (list_of_set O (get A category)))).
Proof.
  intros Hin.
  assert (E : merge_entity_results O A A !! category
    = Some (take 10 (List.filter non_blank (list_of_set O (get A category))))).
  { rewrite merge_lookup by done. unfold merged_items.
    by rewrite list_of_set_twice. }
  split; [done|].
  intros Hnb. rewrite E. do 2 f_equal.
  apply bool_filter_all. intros x Hx. apply Hnb. by apply list_of_set_elem in Hx.
Qed.

Lemma merge_self_idempotent_witness :
  merge_entity_results insertion_order sample_rule sample_rule !! str "parties"
    = Some (take 10 (List.filter non_blank
              (list_of_set insertion_order (get sample_rule (str "parties")))))
  ∧ ((∀ x, x ∈ get sample_rule (str "parties") → non_blank x = true) →
     merge_entity_results insertion_order sample_rule sample_rule !! str "parties"
       = Some (take 10 (list_of_set insertion_order (get sample_rule (str "parties"))))).
Proof.
  apply (merge_self_idempotent insertion_order sample_rule (str "parties")).
  vm_compute. left.
Defined.

End MergeProps.

(* ===================================================================== *)
(** * Properties of the generation wrapper                                *)
(* ===================================================================== *)

Module GraniteProps.

Import Entities Granite.

(** ** Vocabulary of the statements *)

(** The state in which [_ensure_model_loaded] leaves the process. *)
Definition after_ensure (w : World) (s : Sys) : Sys :=
  snd (_ensure_model_loaded w s).

(** All three acquisition calls of an attempt succeed. *)
Definition load_succeeds (o : LoadOutcome) : bool :=
  match tokenizer_from_pretrained o, model_from_pretrained o, make_pipeline o with
  | Ok _, Ok _, Ok _ => true
  | _, _, _ => false
  end.

(** The model can be used: the flag is set and a pipeline is present. *)
Definition available (g : GraniteLLMService) : bool :=
  model_loaded g && bool_decide (is_Some (pipeline g)).

(** The request that [generate_response] sends for its arguments. *)
Definition issued_request (prompt : pystr) (max_length : Z) (eos : option Z)
  : GenRequest :=
  {| text_inputs :=
       str "<|user|>" ++ [LF] ++ prompt ++ [LF] ++ str "<|assistant|>" ++ [LF];
     max_new_tokens := Z.min max_length 100;
     temperature := PyFloat.lit "0.3";
     do_sample := true;
     top_p := PyFloat.lit "0.8";
     repetition_penalty := PyFloat.lit "1.05";
     pad_token_id := eos;
     num_return_sequences := 1 |}.

(** The text after the last turn marker, trimmed. *)
Definition answer_part (full_response : pystr) : pystr :=
  strip (List.last (split full_response assistant_marker) []).

(** What [generate_response] returns for an answer of the pipeline. *)
Definition reply_of (answer : result (list (gmap pystr pystr))) : pystr :=
  match answer with
  | Raise _ => msg_generation_error
  | Ok [] => msg_generation_error
  | Ok (o :: _) =>
    match o !! str "generated_text" with
    | None => msg_generation_error
    | Some full_response =>
      if negb (truthy (answer_part full_response))
         || (length (answer_part full_response) <? 10)%nat
      then msg_too_short
      else answer_part full_response
    end
  end.

Definition with_request (s : Sys) (req : GenRequest) : Sys :=
  {| self := self s; load_attempts := load_attempts s;
     issued := issued s ++ [req] |}.

(** The sampling parameters of a request are the fixed ones, with [n] new
    tokens at most. *)
Definition fixed_sampling (n : Z) (req : GenRequest) : Prop :=
  max_new_tokens req = n
  ∧ temperature req = PyFloat.lit "0.3"
  ∧ top_p req = PyFloat.lit "0.8"
  ∧ repetition_penalty req = PyFloat.lit "1.05"
  ∧ do_sample req = true.

(** ** Model life cycle *)

Lemma initialize_model_run (w : World) (s : Sys) :
  ∃ g,
    _initialize_model w s
      = (Ok tt, {| self := g; load_attempts := S (load_attempts s);
                   issued := issued s |})
    ∧ model_loaded g = load_succeeds (acquire w (load_attempts s))
    ∧ (load_succeeds (acquire w (load_attempts s)) = true → is_Some (pipeline g)
         ∧ is_Some (tokenizer g)).
Proof.
  unfold _initialize_model, try_except, mbind, M_bind, begin_load, lift_result,
    set_self, load_succeeds.
  destruct (acquire w (load_attempts s)) as [[t|e1] [m|e2] [p|e3]]; simpl;
    eexists; (split; [reflexivity|]); simpl; (split; [reflexivity|]);
    intros; try discriminate; split; eauto.
Qed.

Lemma ensure_run (w : World) (s : Sys) :
  _ensure_model_loaded w s = (Ok tt, after_ensure w s).
Proof.
  unfold after_ensure, _ensure_model_loaded, mbind, M_bind, get_self.
  destruct (model_loaded (self s)); simpl; [done|].
  destruct (initialize_model_run w s) as (g & -> & _). done.
Qed.

Lemma ensure_loaded (w : World) (s : Sys) :
  model_loaded (self s) = true → after_ensure w s = s.
Proof.
  intros Hl. unfold after_ensure, _ensure_model_loaded, mbind, M_bind, get_self.
  by rewrite Hl.
Qed.

Lemma ensure_not_loaded (w : World) (s : Sys) :
  model_loaded (self s) = false →
  load_attempts (after_ensure w s) = S (load_attempts s)
  ∧ issued (after_ensure w s) = issued s
  ∧ model_loaded (self (after_ensure w s))
      = load_succeeds (acquire w (load_attempts s))
  ∧ (load_succeeds (acquire w (load_attempts s)) = true →
       available (self (after_ensure w s)) = true).
Proof.
  intros Hl. unfold after_ensure, _ensure_model_loaded, mbind, M_bind, get_self.
  rewrite Hl. simpl.
  destruct (initialize_model_run w s) as (g & -> & Hg & Hp). simpl.
  repeat split; try done.
  intros Hs. unfold available. rewrite Hg, Hs. simpl.
  apply bool_decide_eq_true. by apply Hp.
Qed.

Lemma ensure_issued (w : World) (s : Sys) :
  issued (after_ensure w s) = issued s.
Proof.
  destruct (model_loaded (self s)) eqn:Hl.
  - by rewrite ensure_loaded.
  - by apply ensure_not_loaded.
Qed.

(** ** [generate_response] in closed form *)

Lemma generate_response_run (prompt : pystr) (max_length : Z)
    (temperature : PyFloat.float) (w : World) (s : Sys) :
  generate_response prompt max_length temperature w s =
    let s1 := after_ensure w s in
    if available (self s1) then
      match tokenizer (self s1) with
      | None => (Ok msg_generation_error, s1)
      | Some t =>
        let req := issued_request prompt max_length (eos_token_id t) in
        (Ok (reply_of (run_pipeline w (length (issued s1)) req)),
         with_request s1 req)
      end
    else (Ok msg_model_not_available, s1).
Proof.
  unfold generate_response, try_except at 1, mbind, M_bind.
  rewrite ensure_run. cbv zeta. unfold get_self, available.
  set (s1 := after_ensure w s).
  destruct (model_loaded (self s1)); simpl; [|done].
  destruct (pipeline (self s1)) as [p|]; simpl; [|done].
  unfold try_except, raise, call_pipeline, reply_of, with_request, issued_request,
    answer_part.
  destruct (tokenizer (self s1)) as [t|]; simpl; [|done].
  destruct (run_pipeline w _ _) as [[|o outs]|e]; simpl; try done.
  destruct (o !! str "generated_text") as [full|]; simpl; [|done].
  by destruct (_ || _).
Qed.

(** What a call of [generate_response] leaves behind. *)
Lemma generate_response_effect (prompt : pystr) (max_length : Z)
    (temperature : PyFloat.float) (w : World) (s : Sys) :
  ∃ r s' new,
    generate_response prompt max_length temperature w s = (Ok r, s')
    ∧ self s' = self (after_ensure w s)
    ∧ load_attempts s' = load_attempts (after_ensure w s)
    ∧ issued s' = issued s ++ new
    ∧ Forall (fixed_sampling (Z.min max_length 100)) new.
Proof.
  rewrite generate_response_run. cbv zeta.
  destruct (available _); [destruct (tokenizer _) as [t|]|].
  - eexists _, _, [_]. split; [reflexivity|]. simpl.
    rewrite ensure_issued. repeat split; try done.
    repeat constructor.
  - eexists _, _, []. split; [reflexivity|].
    rewrite ensure_issued, app_nil_r. by repeat split.
  - eexists _, _, []. split; [reflexivity|].
    rewrite ensure_issued, app_nil_r. by repeat split.
Qed.

(** ** The derived operations in closed form

    Each of them first makes sure the model is loaded, answers with its
    own fallback when it is not, and otherwise hands a prompt to
    [generate_response]; none of its handlers is ever reached. *)

Definition simplify_fallback (clause_text : pystr) : pystr :=
  str "Simplified: " ++ take 200 clause_text ++ str "... (AI model not available)".

Definition classification_fallback : Classification :=
  {| type := str "General Legal Document";
     confidence := PyFloat.lit "0.3";
     description := str "AI model not available for detailed classification";
     key_characteristics := [str "Document contains legal terminology"] |}.

Lemma simplify_clause_run (clause_text : pystr) (w : World) (s : Sys) :
  simplify_clause clause_text w s =
    if model_loaded (self (after_ensure w s))
    then generate_response (simplify_prompt clause_text) 300 default_temperature
           w (after_ensure w s)
    else (Ok (simplify_fallback clause_text), after_ensure w s).
Proof.
  unfold simplify_clause, try_except, mbind, M_bind.
  rewrite ensure_run. unfold get_self.
  destruct (model_loaded _); simpl; [|reflexivity].
  match goal with |- context [generate_response ?p ?n ?t ?w ?s] =>
    destruct (generate_response_effect p n t w s) as (r & s' & new & -> & _)
  end.
  reflexivity.
Qed.

Lemma extract_entities_with_ai_run (text : pystr) (w : World) (s : Sys) :
  extract_entities_with_ai text w s =
    if model_loaded (self (after_ensure w s))
    then
      let '(r, s') :=
        generate_response (entities_prompt text) 400 default_temperature
          w (after_ensure w s) in
      (match r with
       | Ok response => Ok (parse_entities response)
       | Raise _ => Ok empty_entities
       end, s')
    else (Ok empty_entities, after_ensure w s).
Proof.
  unfold extract_entities_with_ai, try_except, mbind, M_bind.
  rewrite ensure_run. unfold get_self.
  destruct (model_loaded _); simpl; [|reflexivity].
  match goal with |- context [generate_response ?p ?n ?t ?w ?s] =>
    destruct (generate_response_effect p n t w s) as (r & s' & new & -> & _)
  end.
  reflexivity.
Qed.

Lemma classify_document_with_ai_run (text : pystr) (w : World) (s : Sys) :
  classify_document_with_ai text w s =
    if model_loaded (self (after_ensure w s))
    then
      let '(r, s') :=
        generate_response (classification_prompt text) 300 default_temperature
          w (after_ensure w s) in
      (match r with
       | Ok response => Ok (parse_classification response)
       | Raise _ => Ok classification_fallback
       end, s')
    else (Ok classification_fallback, after_ensure w s).
Proof.
  unfold classify_document_with_ai, try_except, mbind, M_bind.
  rewrite ensure_run. unfold get_self.
  destruct (model_loaded _); simpl; [|reflexivity].
  match goal with |- context [generate_response ?p ?n ?t ?w ?s] =>
    destruct (generate_response_effect p n t w s) as (r & s' & new & -> & _)
  end.
  reflexivity.
Qed.

Lemma answer_question_run (question context : pystr) (w : World) (s : Sys) :
  answer_question question context w s =
    if truthy (_try_simple_answer question context)
    then (Ok (_try_simple_answer question context), s)
    else if model_loaded (self (after_ensure w s))
    then generate_response (question_prompt question context) 200
           default_temperature w (after_ensure w s)
    else (Ok (_fallback_answer question context), after_ensure w s).
Proof.
  unfold answer_question, try_except. cbv zeta.
  destruct (truthy _); [reflexivity|].
  unfold mbind, M_bind. rewrite ensure_run. unfold get_self.
  destruct (model_loaded _); simpl; [|reflexivity].
  match goal with |- context [generate_response ?p ?n ?t ?w ?s] =>
    destruct (generate_response_effect p n t w s) as (r & s' & new & -> & _)
  end.
  reflexivity.
Qed.

(** ** Two environments to run the model in *)

(** No model can be acquired, and no pipeline answers. *)
Definition offline_world : World :=
  {| acquire := fun _ =>
       {| tokenizer_from_pretrained := Raise (str "connection error");
          model_from_pretrained := Raise (str "connection error");
          make_pipeline := Raise (str "connection error") |};
     run_pipeline := fun _ _ => Raise (str "no pipeline") |}.

(** Acquisition succeeds, and the pipeline echoes the prompt followed by
    [reply], as models of this class do. *)
Definition echo_world (reply : pystr) : World :=
  {| acquire := fun _ =>
       {| tokenizer_from_pretrained := Ok {| eos_token_id := Some 0%Z |};
          model_from_pretrained := Ok (model_handle 0);
          make_pipeline := Ok (pipeline_handle 0) |};
     run_pipeline := fun _ req =>
       Ok [ {[ str "generated_text" := text_inputs req ++ reply ]} ] |}.

(** ** The contract of [generate_response] *)

Lemma lstrip_by_length (p : N -> bool) (s : pystr) :
  (length (lstrip_by p s) ≤ length s)%nat.
Proof.
  induction s as [|c s IH]; simpl; [done|].
  destruct (p c); simpl; lia.
Qed.

(** Trimming never lengthens a string. *)
Lemma strip_length (s : pystr) : (length (strip s) ≤ length s)%nat.
Proof.
  unfold strip, rstrip, lstrip. rewrite length_rev.
  etrans; [apply lstrip_by_length|]. rewrite length_rev.
  apply lstrip_by_length.
Qed.

(** C3: [generate_response] always returns a string and never raises.
    With the state [after_ensure w s] reached after the lazy load: when
    the model is not loaded (or no pipeline is present) the result is the
    "Model not available" message; when the generation call raises, it is
    the "technical difficulties" message; and when the text after the
    last turn marker is empty or shorter than 10 characters, before or
    after trimming, it is the "try a more specific question" message. *)
Theorem generate_response_contract (w : World) (s : Sys) (prompt : pystr)
    (max_length : Z) (temperature : PyFloat.float) :
  ∃ r s',
    generate_response prompt max_length temperature w s = (Ok r, s')
    ∧ (model_loaded (self (after_ensure w s)) = false
       ∨ pipeline (self (after_ensure w s)) = None →
       r = msg_model_not_available)
    ∧ (model_loaded (self s) = false →
       load_succeeds (acquire w (load_attempts s)) = false →
       r = msg_model_not_available)
    ∧ (∀ t, available (self (after_ensure w s)) = true →
         tokenizer (self (after_ensure w s)) = Some t →
         (∀ e, run_pipeline w (length (issued (after_ensure w s)))
                 (issued_request prompt max_length (eos_token_id t)) = Raise e →
               r = msg_generation_error)
         ∧ (∀ o outputs full_response,
              run_pipeline w (length (issued (after_ensure w s)))
                (issued_request prompt max_length (eos_token_id t))
                = Ok (o :: outputs) →
              o !! str "generated_text" = Some full_response →
              answer_part full_response = []
              ∨ (length (answer_part full_response) < 10)%nat
              ∨ (length (List.last (split full_response assistant_marker) []) < 10)%nat →
              r = msg_too_short)).
Proof.
  rewrite generate_response_run. cbv zeta. unfold available.
  set (s1 := after_ensure w s).
  assert (Hfail : model_loaded (self s) = false →
            load_succeeds (acquire w (load_attempts s)) = false →
            model_loaded (self s1) = false).
  { intros Hl Hs. destruct (ensure_not_loaded w s Hl) as (_ & _ & E & _).
    subst s1. by rewrite E. }
  destruct (model_loaded (self s1)) eqn:Hloaded; simpl.
  - destruct (pipeline (self s1)) as [p|] eqn:Hp; simpl.
    + destruct (tokenizer (self s1)) as [t|] eqn:Ht.
      * eexists _, _. split; [reflexivity|].
        split; [intros [?|?]; discriminate|].
        split; [intros Hl Hs; specialize (Hfail Hl Hs); discriminate|].
        intros t' _ [= <-]. split.
        -- intros e ->. reflexivity.
        -- intros o outputs full -> Hfull Hshort. simpl. rewrite Hfull.
           destruct Hshort as [->|Hlt]; [reflexivity|].
           assert (Hlt' : (length (answer_part full) < 10)%nat).
           { destruct Hlt as [?|Hraw]; [done|].
             eapply Nat.le_lt_trans; [apply strip_length|exact Hraw]. }
           apply Nat.ltb_lt in Hlt'. rewrite Hlt'. by rewrite orb_true_r.
      * eexists _, _. split; [reflexivity|].
        split; [intros [?|?]; discriminate|].
        split; [intros Hl Hs; specialize (Hfail Hl Hs); discriminate|].
        intros t' _ [=].
    + eexists _, _. split; [reflexivity|].
      split; [reflexivity|]. split; [reflexivity|]. intros t [=].
  - eexists _, _. split; [reflexivity|].
    split; [reflexivity|]. split; [reflexivity|]. intros t [=].
Qed.

(** The contract at work: with no model to acquire, the answer is the
    "Model not available" message; with a pipeline that answers nothing
    after the echoed prompt, it is the "more specific question" one. *)
Lemma generate_response_contract_witness :
  fst (generate_response (str "What is a lease?") 512 default_temperature
         offline_world initial) = Ok msg_model_not_available
  ∧ fst (generate_response (str "What is a lease?") 512 default_temperature
           (echo_world []) initial) = Ok msg_too_short.
Proof.
  split.
  - destruct (generate_response_contract offline_world initial
                (str "What is a lease?") 512 default_temperature)
      as (r & s' & E & _ & Hna & _).
    rewrite E. simpl. f_equal. apply Hna; reflexivity.
  - destruct (generate_response_contract (echo_world []) initial
                (str "What is a lease?") 512 default_temperature)
      as (r & s' & E & _ & _ & Hgen).
    rewrite E. simpl. f_equal.
    destruct (Hgen {| eos_token_id := Some 0%Z |}) as [_ Hshort];
      [reflexivity|reflexivity|].
    eapply Hshort; [reflexivity|reflexivity|].
    left. vm_compute. reflexivity.
Defined.

(** ** The request issued to the generation capability *)

(** C10: whatever [max_length] and [temperature] are passed, a call of
    [generate_response] sends at most one request, with
    [max_new_tokens = min(max_length, 100)], temperature 0.3, top_p 0.8
    and repetition penalty 1.05 (exactly [issued_request] when the model
    is available); the [temperature] argument changes nothing; and every
    request sent on behalf of a derived operation, which pass 300, 400,
    300 and 200, has [max_new_tokens = 100]. *)
Theorem generation_request_parameters (w : World) (s : Sys) :
  (∀ prompt max_length temperature,
     ∃ new,
       issued (snd (generate_response prompt max_length temperature w s))
         = issued s ++ new
       ∧ Forall (fixed_sampling (Z.min max_length 100)) new
       ∧ (∀ t, available (self (after_ensure w s)) = true →
               tokenizer (self (after_ensure w s)) = Some t →
               new = [issued_request prompt max_length (eos_token_id t)])
       ∧ (∀ temperature',
            generate_response prompt max_length temperature' w s
            = generate_response prompt max_length temperature w s))
  ∧ (∀ clause_text, ∃ new,
       issued (snd (simplify_clause clause_text w s)) = issued s ++ new
       ∧ Forall (fixed_sampling 100) new)
  ∧ (∀ text, ∃ new,
       issued (snd (extract_entities_with_ai text w s)) = issued s ++ new
       ∧ Forall (fixed_sampling 100) new)
  ∧ (∀ text, ∃ new,
       issued (snd (classify_document_with_ai text w s)) = issued s ++ new
       ∧ Forall (fixed_sampling 100) new)
  ∧ (∀ question context, ∃ new,
       issued (snd (answer_question question context w s)) = issued s ++ new
       ∧ Forall (fixed_sampling 100) new).
Proof.
  assert (Hderived : ∀ prompt n, Z.min n 100 = 100%Z →
    ∃ new,
      issued (snd (generate_response prompt n default_temperature w
                     (after_ensure w s))) = issued s ++ new
      ∧ Forall (fixed_sampling 100) new).
  { intros prompt n Hn.
    destruct (generate_response_effect prompt n default_temperature w
                (after_ensure w s)) as (r & s' & new & -> & _ & _ & E & Hall).
    exists new. simpl. by rewrite E, ensure_issued, <- Hn. }
  assert (Hnone : ∃ new : list GenRequest,
    issued (after_ensure w s) = issued s ++ new ∧ Forall (fixed_sampling 100) new).
  { exists []. by rewrite ensure_issued, app_nil_r. }
  assert (Htemp : ∀ prompt max_length temperature temperature',
    generate_response prompt max_length temperature' w s
    = generate_response prompt max_length temperature w s) by reflexivity.
  split; [|split; [|split; [|split]]].
  - intros prompt max_length temperature.
    cut (∃ new,
      issued (snd (generate_response prompt max_length temperature w s))
        = issued s ++ new
      ∧ Forall (fixed_sampling (Z.min max_length 100)) new
      ∧ (∀ t, available (self (after_ensure w s)) = true →
              tokenizer (self (after_ensure w s)) = Some t →
              new = [issued_request prompt max_length (eos_token_id t)])).
    { intros (new & H1 & H2 & H3). exists new.
      split; [exact H1|]. split; [exact H2|]. split; [exact H3|].
      intros temperature'. apply Htemp. }
    rewrite generate_response_run. cbv zeta.
    destruct (available _) eqn:Hav; [destruct (tokenizer _) as [t|] eqn:Ht|].
    + exists [issued_request prompt max_length (eos_token_id t)]. simpl.
      rewrite ensure_issued. split; [done|].
      split; [by repeat constructor|].
      by intros t' _ [= <-].
    + exists []. simpl. rewrite ensure_issued, app_nil_r.
      repeat split; [constructor|discriminate].
    + exists []. simpl. rewrite ensure_issued, app_nil_r.
      repeat split; [constructor|discriminate].
  - intros clause_text. rewrite simplify_clause_run.
    destruct (model_loaded _); [by apply Hderived|done].
  - intros text. rewrite extract_entities_with_ai_run.
    destruct (model_loaded _); [|done].
    destruct (Hderived (entities_prompt text) 400%Z eq_refl) as (new & E & Hall).
    exists new. by destruct (generate_response _ _ _ _ _).
  - intros text. rewrite classify_document_with_ai_run.
    destruct (model_loaded _); [|done].
    destruct (Hderived (classification_prompt text) 300%Z eq_refl)
      as (new & E & Hall).
    exists new. by destruct (generate_response _ _ _ _ _).
  - intros question context. rewrite answer_question_run.
    destruct (truthy _); [exists []; by rewrite app_nil_r|].
    destruct (model_loaded _); [by apply Hderived|done].
Qed.

(** ** A failed load is not terminal *)

(** The state left by a first call that found no model to acquire. *)
Definition after_failed_load : Sys :=
  snd (generate_response (str "What is a lease?") 512 default_temperature
         offline_world initial).

(** C5, as stated, fails: the service records a failed load as "not
    loaded", the very state it starts in, so the next call that needs the
    model runs [_initialize_model] again.  After one failed attempt the
    flag is unset and one attempt is on record; a second call brings the
    count to two. *)
Lemma failed_load_is_attempted_again :
  model_loaded (self after_failed_load) = false
  ∧ load_attempts after_failed_load = 1%nat
  ∧ load_attempts
      (snd (generate_response (str "What is a lease?") 512 default_temperature
              offline_world after_failed_load)) = 2%nat.
Proof. repeat split; vm_compute; reflexivity. Qed.

(** C5 (amended): a failed load leaves the service in the state "not
    loaded", and in that state every generation-dependent call makes
    exactly one new attempt to initialise the model (the question
    shortcut, which needs no model, makes none); no call raises, and when
    the new attempt fails as well each caller receives its fallback
    value. *)
Theorem failed_load_is_retried (w : World) (s : Sys) :
  model_loaded (self s) = false →
  (∀ prompt max_length temperature, ∃ r s',
     generate_response prompt max_length temperature w s = (Ok r, s')
     ∧ load_attempts s' = S (load_attempts s))
  ∧ (∀ clause_text, ∃ r s',
       simplify_clause clause_text w s = (Ok r, s')
       ∧ load_attempts s' = S (load_attempts s))
  ∧ (∀ text, ∃ r s',
       extract_entities_with_ai text w s = (Ok r, s')
       ∧ load_attempts s' = S (load_attempts s))
  ∧ (∀ text, ∃ r s',
       classify_document_with_ai text w s = (Ok r, s')
       ∧ load_attempts s' = S (load_attempts s))
  ∧ (∀ question context, ∃ r s',
       answer_question question context w s = (Ok r, s')
       ∧ load_attempts s' =
           if truthy (_try_simple_answer question context)
           then load_attempts s else S (load_attempts s))
  ∧ (load_succeeds (acquire w (load_attempts s)) = false →
     (∀ prompt max_length temperature,
        fst (generate_response prompt max_length temperature w s)
        = Ok msg_model_not_available)
     ∧ (∀ clause_text,
          fst (simplify_clause clause_text w s) = Ok (simplify_fallback clause_text))
     ∧ (∀ text, fst (extract_entities_with_ai text w s) = Ok empty_entities)
     ∧ (∀ text,
          fst (classify_document_with_ai text w s) = Ok classification_fallback)
     ∧ (∀ question context,
          truthy (_try_simple_answer question context) = false →
          fst (answer_question question context w s)
          = Ok (_fallback_answer question context))).
Proof.
  intros Hnot.
  destruct (ensure_not_loaded w s Hnot) as (Hattempts & _ & Hflag & _).
  assert (Hgen : ∀ prompt n, model_loaded (self (after_ensure w s)) = true →
    ∃ r s', generate_response prompt n default_temperature w (after_ensure w s)
              = (Ok r, s')
            ∧ load_attempts s' = S (load_attempts s)).
  { intros prompt n Hl.
    destruct (generate_response_effect prompt n default_temperature w
                (after_ensure w s)) as (r & s' & new & E & _ & Hatt & _).
    exists r, s'. split; [done|].
    by rewrite Hatt, (ensure_loaded w _ Hl). }
  split; [|split; [|split; [|split; [|split]]]].
  - intros prompt max_length temperature.
    destruct (generate_response_effect prompt max_length temperature w s)
      as (r & s' & new & E & _ & Hatt & _).
    exists r, s'. split; [done|]. by rewrite Hatt.
  - intros clause_text. rewrite simplify_clause_run.
    destruct (model_loaded (self (after_ensure w s))) eqn:Hl; [by apply Hgen|]. by eexists _, _.
  - intros text. rewrite extract_entities_with_ai_run.
    destruct (model_loaded (self (after_ensure w s))) eqn:Hl; [|by eexists _, _].
    destruct (Hgen (entities_prompt text) 400%Z eq_refl) as (r & s' & -> & ?).
    by eexists _, _.
  - intros text. rewrite classify_document_with_ai_run.
    destruct (model_loaded (self (after_ensure w s))) eqn:Hl; [|by eexists _, _].
    destruct (Hgen (classification_prompt text) 300%Z eq_refl) as (r & s' & -> & ?).
    by eexists _, _.
  - intros question context. rewrite answer_question_run.
    destruct (truthy _); [by eexists _, _|].
    destruct (model_loaded (self (after_ensure w s))) eqn:Hl; [by apply Hgen|]. by eexists _, _.
  - intros Hfails. rewrite Hfails in Hflag.
    split; [|split; [|split; [|split]]].
    + intros prompt max_length temperature. rewrite generate_response_run.
      cbv zeta. unfold available. by rewrite Hflag.
    + intros clause_text. rewrite simplify_clause_run. by rewrite Hflag.
    + intros text. rewrite extract_entities_with_ai_run. by rewrite Hflag.
    + intros text. rewrite classify_document_with_ai_run. by rewrite Hflag.
    + intros question context Hno. rewrite answer_question_run.
      by rewrite Hno, Hflag.
Qed.

Lemma failed_load_is_retried_witness :
  (∃ r s', simplify_clause (str "The Lessee shall pay rent.") offline_world
             after_failed_load = (Ok r, s')
           ∧ load_attempts s' = S (load_attempts after_failed_load))
  ∧ fst (classify_document_with_ai (str "Lease agreement") offline_world
           after_failed_load) = Ok classification_fallback.
Proof.
  assert (Hnot : model_loaded (self after_failed_load) = false)
    by (vm_compute; reflexivity).
  destruct (failed_load_is_retried offline_world after_failed_load Hnot)
    as (_ & Hsimplify & _ & _ & _ & Hfallback).
  split; [apply Hsimplify|].
  apply Hfallback. vm_compute. reflexivity.
Defined.

End GraniteProps.

(* ===================================================================== *)
(** * Properties of the response parsers                                  *)
(* ===================================================================== *)

Module ParserProps.

Import Entities Granite.

(** ** Bullet lines *)

(** A trimmed line opens with a bullet. *)
Definition is_bullet (line : pystr) : bool :=
  startswith line (str "-") || startswith line (str "•").

(** What a line of the reply contributes to [key_characteristics]. *)
Definition bullet_item (line : pystr) : list pystr :=
  let line := strip line in
  if is_bullet line && truthy (strip (lstrip_chars (str "-•") line))
  then [strip (lstrip_chars (str "-•") line)]
  else [].

Lemma startswith_nil (s : pystr) : startswith s [] = true.
Proof. by destruct s. Qed.

Lemma is_bullet_head (line : pystr) :
  is_bullet line = true → ∃ rest, line = 45 :: rest ∨ line = 8226 :: rest.
Proof.
  unfold is_bullet.
  change (str "-") with [45]. change (str "•") with [8226].
  destruct line as [|c rest]; cbn [startswith orb]; [done|].
  rewrite startswith_nil, !andb_true_r, orb_true_iff, !N.eqb_eq.
  intros [<-|<-]; eauto.
Qed.

(** A line that opens with a bullet opens with no header whose first
    character is not a bullet. *)
Lemma bullet_not_header (line header : pystr) (a : N) (p : pystr) :
  header = a :: p → a ≠ 45 → a ≠ 8226 →
  is_bullet line = true → startswith line header = false.
Proof.
  intros -> H1 H2 Hb.
  destruct (is_bullet_head line Hb) as (rest & [->| ->]); cbn [startswith];
    apply andb_false_iff; left; by apply N.eqb_neq.
Qed.

Lemma header_not_bullet (line header : pystr) (a : N) (p : pystr) :
  header = a :: p → a ≠ 45 → a ≠ 8226 →
  startswith line header = true → is_bullet line = false.
Proof.
  intros Hh H1 H2 Hs. destruct (is_bullet line) eqn:Hb; [|done].
  by rewrite (bullet_not_header line header a p Hh H1 H2 Hb) in Hs.
Qed.

(** ** Classification: bullets need no header *)

Lemma classification_line_bullets (result : Classification) (line : pystr) :
  key_characteristics (parse_classification_line result line)
  = key_characteristics result ++ bullet_item line.
Proof.
  unfold parse_classification_line, bullet_item. cbv zeta.
  set (l := strip line).
  assert (Hh : ∀ header a p, header = a :: p → a ≠ 45 → a ≠ 8226 →
            startswith l header = true →
            is_bullet l && truthy (strip (lstrip_chars (str "-•") l)) = false).
  { intros header a p Hh H1 H2 Hs.
    by rewrite (header_not_bullet l header a p Hh H1 H2 Hs). }
  destruct (startswith l (str "Type:")) eqn:E1.
  { rewrite (Hh _ 84 (str "ype:") eq_refl) by done.
    rewrite app_nil_r. by case_match. }
  destruct (startswith l (str "Confidence:")) eqn:E2.
  { rewrite (Hh _ 67 (str "onfidence:") eq_refl) by done.
    by rewrite app_nil_r. }
  destruct (startswith l (str "Description:")) eqn:E3.
  { rewrite (Hh _ 68 (str "escription:") eq_refl) by done.
    rewrite app_nil_r. by case_match. }
  destruct (startswith l (str "Key Characteristics:")) eqn:E4.
  { rewrite (Hh _ 75 (str "ey Characteristics:") eq_refl) by done.
    by rewrite app_nil_r. }
  fold (is_bullet l).
  destruct (is_bullet l); simpl; [|by rewrite app_nil_r].
  case_match; simpl; [done|by rewrite app_nil_r].
Qed.

Lemma classification_fold_bullets (lines : list pystr) (result : Classification) :
  key_characteristics (foldl parse_classification_line result lines)
  = key_characteristics result ++ flat_map bullet_item lines.
Proof.
  revert result. induction lines as [|line lines IH]; intros result; simpl.
  - by rewrite app_nil_r.
  - by rewrite IH, classification_line_bullets, <- app_assoc.
Qed.

(** A reply whose first bullet precedes the [Key Characteristics:]
    header, and whose second follows the [Type:] header. *)
Definition early_bullets : pystr :=
  str "- signed by both parties
Type: Lease Agreement
- runs for two years
Key Characteristics:
- rent is due monthly".

(** C7, as stated, fails: the classification parser keeps no cursor.  The
    bullets that precede the [Key Characteristics:] header, one of them
    under the [Type:] header, are collected like the one that follows
    it. *)
Lemma bullets_before_header_are_collected :
  key_characteristics (parse_classification early_bullets)
  = [str "signed by both parties"; str "runs for two years";
     str "rent is due monthly"]
  ∧ type (parse_classification early_bullets) = str "Lease Agreement".
Proof. split; vm_compute; reflexivity. Qed.

(** C7 (amended): classification parsing has no category cursor: every
    line of the reply that, once trimmed, opens with [-] or the bullet
    sign contributes its text (bullets and surrounding blanks removed,
    when non-empty) to [key_characteristics], in order, wherever it
    stands; the [Key Characteristics:] header has no effect. *)
Theorem classification_bullets_anywhere (response : pystr) :
  key_characteristics (parse_classification response)
  = flat_map bullet_item (split response [LF]).
Proof.
  unfold parse_classification. by rewrite classification_fold_bullets.
Qed.

(** ** Confidence *)

(** C8: the [Confidence:] value is the first decimal numeral of the value
    text, divided by 100 exactly when it exceeds 1.0: "85" gives 0.85,
    "95%" gives 0.95, "0.9" gives 0.9, "1.2" gives 0.012, and "abc", which
    holds no numeral, leaves the confidence at its previous value (the
    default 0.5).  Floats are binary64 values; a decimal such as 0.85
    stands for the double nearest to it, as the Python literal does. *)
Theorem confidence_parsing :
  confidence (parse_classification (str "Confidence: 85")) = PyFloat.lit "0.85"
  ∧ confidence (parse_classification (str "Confidence: 95%")) = PyFloat.lit "0.95"
  ∧ confidence (parse_classification (str "Confidence: 0.9")) = PyFloat.lit "0.9"
  ∧ confidence (parse_classification (str "Confidence: 1.2")) = PyFloat.lit "0.012"
  ∧ confidence (parse_classification (str "Confidence: abc"))
      = confidence default_classification
  ∧ (∀ prior, parse_confidence (str "abc") prior = prior)
  ∧ (∀ prior,
       parse_confidence (str "between 80 and 90 percent") prior = PyFloat.lit "0.8")
  ∧ (∀ conf_str prior,
       Re.search (str "(\d+\.?\d*)") conf_str [] = None →
       parse_confidence conf_str prior = prior)
  ∧ (∀ conf_str prior numeral value,
       Re.search (str "(\d+\.?\d*)") conf_str [] = Some numeral →
       PyFloat.of_str numeral = Some value →
       parse_confidence conf_str prior
       = if PyFloat.gt value (PyFloat.lit "1.0")
         then PyFloat.div value (PyFloat.lit "100.0")
         else value).
Proof.
  do 5 (split; [vm_compute; reflexivity|]).
  split; [|split; [|split]].
  - intros prior. unfold parse_confidence.
    by replace (Re.search _ (str "abc") []) with (@None pystr)
      by (vm_compute; reflexivity).
  - intros prior. unfold parse_confidence.
    replace (Re.search _ (str "between 80 and 90 percent") [])
      with (Some (str "80")) by (vm_compute; reflexivity).
    vm_compute. reflexivity.
  - intros conf_str prior Hnone. unfold parse_confidence. by rewrite Hnone.
  - intros conf_str prior numeral value Hfound Hvalue.
    unfold parse_confidence. by rewrite Hfound, Hvalue.
Qed.

(** ** The entity parser and a bullet sign before any header *)

(** A reply that opens with a bullet-sign line, before any section
    header. *)
Definition stray_bullet_reply : pystr :=
  str "• Acme Corp
PARTIES: John Smith, Acme Corp
DATES: within 30 days".

(** The same reply with a dash for the bullet sign. *)
Definition stray_dash_reply : pystr :=
  str "- Acme Corp
PARTIES: John Smith, Acme Corp
DATES: within 30 days".

(** C6 does not hold of the code: a line that opens with the bullet sign
    before any section header is not ignored.  The cursor test guards the
    dash only ([cursor and dash or bullet]), so the line is appended under
    the key [None]; the [KeyError] ends the loop and the headers that
    follow are never read.  With a dash in its place the same reply is
    parsed as C6 says. *)
Theorem stray_bullet_sign_ends_the_parse :
  parse_entities stray_bullet_reply = empty_entities
  ∧ parse_entities stray_dash_reply !! str "parties"
      = Some [str "John Smith"; str "Acme Corp"]
  ∧ parse_entities stray_dash_reply !! str "dates" = Some [str "within 30 days"]
  ∧ fst (extract_entities_with_ai (str "John Smith shall pay Acme Corp.")
           (GraniteProps.echo_world stray_bullet_reply) initial)
      = Ok empty_entities.
Proof. repeat split; vm_compute; reflexivity. Qed.

(** ** The entity parser on well-formed replies *)

(** All five headers, each followed by an inline comma-separated list. *)
Definition inline_reply : pystr :=
  str "PARTIES: John Smith, Acme Corp
DATES: January 5 2024, within 30 days
MONETARY VALUES: $500
OBLIGATIONS: pay the rent, keep the premises clean
LEGAL TERMS: Liability, Breach".

(** The same items as bullet lines under their headers. *)
Definition bullet_reply : pystr :=
  str "PARTIES:
- John Smith
- Acme Corp
DATES:
• January 5 2024
• within 30 days
MONETARY VALUES:
- $500
OBLIGATIONS:
- pay the rent
- keep the premises clean
LEGAL TERMS:
- Liability
- Breach".

(** [inline_reply] without its [DATES:] line. *)
Definition reply_without_dates : pystr :=
  str "PARTIES: John Smith, Acme Corp
MONETARY VALUES: $500
OBLIGATIONS: pay the rent, keep the premises clean
LEGAL TERMS: Liability, Breach".

(** The placeholder of the prompt echoed after a header. *)
Definition placeholder_reply : pystr :=
  str "PARTIES: [list the individuals, companies, or organizations involved]
DATES: within 30 days".

Definition expected_entities : entity_dict :=
  <[str "legal_terms" := [str "Liability"; str "Breach"]]>
 (<[str "obligations" := [str "pay the rent"; str "keep the premises clean"]]>
 (<[str "monetary_values" := [str "$500"]]>
 (<[str "dates" := [str "January 5 2024"; str "within 30 days"]]>
 (<[str "parties" := [str "John Smith"; str "Acme Corp"]]> ∅)))).

(** On a reply with all five headers and inline lists the parser recovers
    exactly the listed items; on the bullet-list form of the reply it
    recovers the same dict; without the [DATES:] line the dates are empty
    and the other categories unchanged; and the placeholder after a
    header leaves that category empty. *)
Theorem entity_parser_well_formed_replies :
  parse_entities inline_reply = expected_entities
  ∧ parse_entities bullet_reply = expected_entities
  ∧ parse_entities reply_without_dates = <[str "dates" := []]> expected_entities
  ∧ parse_entities placeholder_reply !! str "parties" = Some []
  ∧ parse_entities placeholder_reply !! str "dates" = Some [str "within 30 days"].
Proof. repeat split; vm_compute; reflexivity. Qed.

(** ** The parsed dict always has the five categories *)

Lemma extend_dom (entities entities' : entity_dict) (key : option pystr)
    (items : list pystr) :
  extend entities key items = Ok entities' → dom entities' = dom entities.
Proof.
  unfold extend. destruct key as [k|]; [|done].
  destruct (entities !! k) as [l|] eqn:Hk; [|done].
  intros [= <-]. rewrite dom_insert_L.
  apply (subseteq_union_1_L (C:=gset pystr)).
  apply singleton_subseteq_l, elem_of_dom. by exists l.
Qed.

Lemma header_branch_dom (entities : entity_dict) (line header placeholder
    category : pystr) (st' : parse_state) :
  header_branch entities line header placeholder category = Ok st' →
  dom (fst st') = dom entities.
Proof.
  unfold header_branch. cbv zeta.
  destruct (_ && _); [|by intros [= <-]].
  destruct (extend _ _ _) as [entities'|e] eqn:Hext; [|done].
  intros [= <-]. by apply extend_dom in Hext.
Qed.

Lemma parse_entity_line_dom (st st' : parse_state) (line : pystr) :
  parse_entity_line st line = Ok st' → dom (fst st') = dom (fst st).
Proof.
  unfold parse_entity_line. destruct st as [entities cursor]. cbv zeta.
  repeat (destruct (startswith _ _); [apply header_branch_dom|]).
  destruct (_ || _); [|by intros [= <-]].
  destruct (truthy _); [|by intros [= <-]].
  destruct (extend _ _ _) as [entities'|e] eqn:Hext; [|done].
  intros [= <-]. by apply extend_dom in Hext.
Qed.

Lemma parse_entity_lines_dom (lines : list pystr) (st : parse_state) :
  dom (parse_entity_lines st lines) = dom (fst st).
Proof.
  revert st. induction lines as [|line lines IH]; intros st; simpl; [done|].
  destruct (parse_entity_line st line) as [st'|e] eqn:Hline; [|done].
  rewrite IH. by apply parse_entity_line_dom in Hline.
Qed.

Lemma parse_entities_dom (response : pystr) :
  dom (parse_entities response) = dom empty_entities.
Proof. unfold parse_entities. by rewrite parse_entity_lines_dom. Qed.

Lemma empty_entities_dom : dom empty_entities = list_to_set categories.
Proof. vm_compute. reflexivity. Qed.

(** Whatever the reply, and whether or not the loop ends in an
    exception, the dict returned by the entity parser has exactly the
    five category keys. *)
Theorem parse_entities_complete (response : pystr) :
  dom (parse_entities response) = list_to_set categories.
Proof. by rewrite parse_entities_dom, empty_entities_dom. Qed.

(** ** The entity parser line by line *)

(** The five section headers. *)
Definition section_headers : list pystr :=
  [str "PARTIES:"; str "DATES:"; str "MONETARY VALUES:"; str "OBLIGATIONS:";
   str "LEGAL TERMS:"].

Lemma no_header_inv (line : pystr) :
  Forall (fun h => startswith line h = false) section_headers →
  startswith line (str "PARTIES:") = false
  ∧ startswith line (str "DATES:") = false
  ∧ startswith line (str "MONETARY VALUES:") = false
  ∧ startswith line (str "OBLIGATIONS:") = false
  ∧ startswith line (str "LEGAL TERMS:") = false.
Proof.
  unfold section_headers. rewrite !Forall_cons. tauto.
Qed.

(** A line that is no header and does not open with the bullet sign is
    ignored, provided that no category is active or that it does not
    open with a dash either: the parser state is unchanged. *)
Theorem unrecognized_line_is_ignored (st : parse_state) (line : pystr) :
  Forall (fun h => startswith (strip line) h = false) section_headers →
  startswith (strip line) (str "•") = false →
  snd st = None ∨ startswith (strip line) (str "-") = false →
  parse_entity_line st line = Ok st.
Proof.
  intros Hh Hbullet Hdash. apply no_header_inv in Hh as (H1 & H2 & H3 & H4 & H5).
  unfold parse_entity_line. destruct st as [entities cursor]. cbv zeta.
  rewrite H1, H2, H3, H4, H5, Hbullet, orb_false_r.
  destruct Hdash as [Hnone|Hdash]; simpl in *.
  - by rewrite Hnone.
  - by rewrite Hdash, andb_false_r.
Qed.

Lemma unrecognized_line_is_ignored_witness :
  parse_entity_line (empty_entities, None) (str "  - Acme Corp")
    = Ok (empty_entities, None)
  ∧ parse_entity_line (empty_entities, Some (str "parties")) (str "Dear Sir,")
    = Ok (empty_entities, Some (str "parties")).
Proof.
  split.
  - apply unrecognized_line_is_ignored.
    + apply (bool_decide_unpack _). vm_compute. exact I.
    + vm_compute. reflexivity.
    + left. reflexivity.
  - apply unrecognized_line_is_ignored.
    + apply (bool_decide_unpack _). vm_compute. exact I.
    + vm_compute. reflexivity.
    + right. vm_compute. reflexivity.
Defined.

(** While a category is active, a line that is no header and opens with a
    dash or the bullet sign is appended to that category, stripped of its
    bullets and surrounding blanks (an empty remainder is dropped); the
    cursor stays. *)
Theorem bullet_line_is_appended (entities : entity_dict) (category : pystr)
    (items : list pystr) (line : pystr) :
  entities !! category = Some items →
  Forall (fun h => startswith (strip line) h = false) section_headers →
  is_bullet (strip line) = true →
  parse_entity_line (entities, Some category) line
  = Ok (if truthy (strip (lstrip_chars (str "-•") (strip line)))
        then <[category := items ++ [strip (lstrip_chars (str "-•") (strip line))]]>
               entities
        else entities,
        Some category).
Proof.
  intros Hitems Hh Hb. apply no_header_inv in Hh as (H1 & H2 & H3 & H4 & H5).
  unfold parse_entity_line. cbv zeta.
  rewrite H1, H2, H3, H4, H5.
  unfold is_bullet in Hb. simpl.
  rewrite Hb. destruct (truthy _); [|done].
  unfold extend. by rewrite Hitems.
Qed.

Lemma bullet_line_is_appended_witness :
  parse_entity_line (<[str "parties" := [str "John Smith"]]> empty_entities,
                     Some (str "parties")) (str " • Acme Corp ")
  = Ok (if truthy (strip (lstrip_chars (str "-•") (strip (str " • Acme Corp "))))
        then <[str "parties" :=
                 [str "John Smith"]
                 ++ [strip (lstrip_chars (str "-•") (strip (str " • Acme Corp ")))]]>
               (<[str "parties" := [str "John Smith"]]> empty_entities)
        else <[str "parties" := [str "John Smith"]]> empty_entities,
        Some (str "parties")).
Proof.
  apply bullet_line_is_appended.
  - vm_compute. reflexivity.
  - apply (bool_decide_unpack _). vm_compute. exact I.
  - vm_compute. reflexivity.
Defined.

End ParserProps.

(* ===================================================================== *)
(** * Properties of the pattern extractor                                 *)
(* ===================================================================== *)

Module ExtractorProps.

Import Entities.

(** ** The patterns are read in full *)

(** Every pattern of the extractors, and the pattern built for every
    legal term, is in the fragment the reader understands; [Re.findall]
    and [Re.search] therefore always run the matcher. *)
Lemma patterns_compile :
  Forall (fun pattern => is_Some (Re.compile pattern))
    (party_patterns ++ date_patterns ++ monetary_patterns ++ obligation_patterns
     ++ map (fun term => str "\b" ++ Re.escape term ++ str "\b") legal_terms
     ++ [str "(\d+\.?\d*)"]).
Proof. apply (bool_decide_unpack _). vm_compute. exact I. Qed.

(** ** Sets of one element *)

Lemma list_of_set_singleton (O : SetOrder) (x : pystr) :
  list_of_set O [x] = [x].
Proof.
  pose proof (list_of_set_NoDup O [x]) as Hnd.
  pose proof (list_of_set_elem O [x]) as Hel.
  destruct (list_of_set O [x]) as [|a [|b l]].
  - exfalso. eapply not_elem_of_nil, Hel. left.
  - f_equal. apply list_elem_of_singleton, Hel. left.
  - exfalso.
    assert (a = x) as -> by (apply list_elem_of_singleton, Hel; left).
    assert (b = x) as -> by (apply list_elem_of_singleton, Hel; right; left).
    apply NoDup_cons in Hnd as [Hnotin _]. apply Hnotin. left.
Qed.

(** ** Reading the rule-based dict *)

Ltac distinct_keys := intros Heq; vm_compute in Heq; discriminate.

Lemma rule_based_lookup (O : SetOrder) (text : pystr) :
  extract_entities_rule_based O text !! str "parties" = Some (extract_parties O text)
  ∧ extract_entities_rule_based O text !! str "dates" = Some (extract_dates O text)
  ∧ extract_entities_rule_based O text !! str "monetary_values"
      = Some (extract_monetary_values O text)
  ∧ extract_entities_rule_based O text !! str "obligations"
      = Some (extract_obligations text)
  ∧ extract_entities_rule_based O text !! str "legal_terms"
      = Some (extract_legal_terms text).
Proof.
  unfold extract_entities_rule_based.
  repeat split;
    repeat first [ apply lookup_insert_eq
                 | rewrite lookup_insert_ne by distinct_keys ].
Qed.

(** ** The end-to-end scenario *)

Definition scenario_text : pystr :=
  str "John Smith shall pay $1,000.00 to Acme Corp within 30 days.".

(** C1, as stated, fails on the obligations.  An obligation runs from the
    modal verb to the first full stop, which here is the decimal point of
    the amount: the only match is the 17 characters "shall pay $1,000.",
    and the length filter (more than 20 characters) removes it.  No
    obligation is returned, so none contains the sentence. *)
Lemma scenario_obligation_stops_at_decimal_point :
  Re.findall
    (str "(?:shall|must|will|agrees? to|required to|responsible for)\s+[^.]+[.]")
    scenario_text [Re.IGNORECASE; Re.DOTALL] = [str "shall pay $1,000."]
  ∧ length (str "shall pay $1,000.") = 17%nat
  ∧ extract_obligations scenario_text = []
  ∧ ¬ (∃ obligation,
         obligation ∈ extract_obligations scenario_text
         ∧ contains obligation
             (str "shall pay $1,000.00 to Acme Corp within 30 days.") = true).
Proof.
  assert (E : extract_obligations scenario_text = []) by (vm_compute; reflexivity).
  do 3 (split; [vm_compute; reflexivity|]).
  rewrite E. intros (o & Hin & _). by apply elem_of_nil in Hin.
Qed.

(** C1 (amended): for the scenario text and every iteration order, the
    pattern extractor returns the dates ["within 30 days"], the monetary
    values ["$1,000.00"], no obligation (the modal match ends at the
    decimal point and is too short to be kept) and no legal term. *)
Theorem scenario_extraction (O : SetOrder) :
  extract_entities_rule_based O scenario_text !! str "dates"
    = Some [str "within 30 days"]
  ∧ extract_entities_rule_based O scenario_text !! str "monetary_values"
      = Some [str "$1,000.00"]
  ∧ extract_entities_rule_based O scenario_text !! str "obligations" = Some []
  ∧ extract_entities_rule_based O scenario_text !! str "legal_terms" = Some [].
Proof.
  destruct (rule_based_lookup O scenario_text) as (_ & -> & -> & -> & ->).
  split; [|split; [|split]].
  - unfold extract_dates. cbv zeta.
    match goal with |- context [list_of_set O ?l] =>
      replace l with [str "within 30 days"] by (vm_compute; reflexivity)
    end.
    by rewrite list_of_set_singleton.
  - unfold extract_monetary_values. cbv zeta.
    match goal with |- context [list_of_set O ?l] =>
      replace l with [str "$1,000.00"] by (vm_compute; reflexivity)
    end.
    by rewrite list_of_set_singleton.
  - vm_compute. reflexivity.
  - vm_compute. reflexivity.
Qed.

(** The parties of the scenario.  Matching ignores case, so the name
    patterns run on over lower-case words: the matches are three word
    sequences, and neither name is an item of the result under any
    iteration order. *)
Lemma scenario_parties (O : SetOrder) :
  extract_parties insertion_order scenario_text
    = [str "John Smith shall pay"; str "to Acme Corp within"; str "to Acme Corp"]
  ∧ (str "John Smith" ∉ extract_parties O scenario_text)
  ∧ (str "Acme Corp" ∉ extract_parties O scenario_text).
Proof.
  split; [vm_compute; reflexivity|].
  assert (Hsub : ∀ x, x ∈ extract_parties O scenario_text →
            x ∈ [str "John Smith shall pay"; str "to Acme Corp within";
                 str "to Acme Corp"]).
  { intros x Hx. unfold extract_parties in Hx. cbv zeta in Hx.
    apply MergeProps.elem_of_take_list, list_of_set_elem in Hx.
    revert Hx.
    match goal with |- x ∈ ?l → _ =>
      replace l with [str "John Smith shall pay"; str "to Acme Corp within";
                      str "to Acme Corp"] by (vm_compute; reflexivity)
    end.
    done. }
  split; intros Hin; apply Hsub in Hin; vm_compute in Hin;
    repeat (apply elem_of_cons in Hin as [Hin|Hin]; [discriminate|]);
    by apply elem_of_nil in Hin.
Qed.

(** ** Obligations are not deduplicated *)

(** A text that states the same obligation twice. *)
Definition repeated_clause : pystr :=
  str "Tenant shall pay the rent on time. Tenant shall pay the rent on time.".

(** C4 does not hold of the code: [extract_obligations] pools the
    matches, filters them by length and caps them, but never removes
    duplicates, unlike the parties, dates and monetary values, which pass
    through a set.  A sentence that occurs twice is returned twice. *)
Theorem obligations_keep_duplicates :
  extract_obligations repeated_clause
    = [str "shall pay the rent on time."; str "shall pay the rent on time."]
  ∧ ¬ NoDup (extract_obligations repeated_clause)
  ∧ (∀ O, extract_entities_rule_based O repeated_clause !! str "obligations"
          = Some [str "shall pay the rent on time.";
                  str "shall pay the rent on time."]).
Proof.
  assert (E : extract_obligations repeated_clause
    = [str "shall pay the rent on time."; str "shall pay the rent on time."])
    by (vm_compute; reflexivity).
  split; [done|]. split.
  - rewrite E. intros Hnd. apply NoDup_cons in Hnd as [Hnotin _].
    apply Hnotin. left.
  - intros O. destruct (rule_based_lookup O repeated_clause) as (_ & _ & _ & -> & _).
    by rewrite E.
Qed.

(** ** The rule-based result is a complete, capped entity set *)

Lemma NoDup_map_bool_filter (g : pystr -> pystr) (f : pystr -> bool)
    (l : list pystr) :
  NoDup (map g l) → NoDup (map g (List.filter f l)).
Proof.
  induction l as [|x l IH]; simpl; [done|].
  intros Hnd. apply NoDup_cons in Hnd as [Hnotin Hnd].
  destruct (f x); simpl; [|by apply IH].
  apply NoDup_cons. split; [|by apply IH].
  intros Hin. apply Hnotin.
  apply list_elem_of_fmap in Hin as (y & -> & Hy).
  apply MergeProps.elem_of_bool_filter in Hy as [Hy _].
  apply list_elem_of_fmap. by exists y.
Qed.

(** For every text and iteration order, the rule-based extractor returns
    a dict with exactly the five category keys; parties, dates and
    monetary values are duplicate-free lists of at most 5 items, the
    legal terms a duplicate-free list of at most 8, and the obligations a
    list of at most 5. *)
Theorem rule_based_entity_set (O : SetOrder) (text : pystr) :
  dom (extract_entities_rule_based O text) = list_to_set categories
  ∧ (length (extract_parties O text) ≤ 5)%nat
  ∧ NoDup (extract_parties O text)
  ∧ (length (extract_dates O text) ≤ 5)%nat
  ∧ NoDup (extract_dates O text)
  ∧ (length (extract_monetary_values O text) ≤ 5)%nat
  ∧ NoDup (extract_monetary_values O text)
  ∧ (length (extract_obligations text) ≤ 5)%nat
  ∧ (length (extract_legal_terms text) ≤ 8)%nat
  ∧ NoDup (extract_legal_terms text).
Proof.
  split.
  { unfold extract_entities_rule_based. rewrite !dom_insert_L, dom_empty_L.
    vm_compute. reflexivity. }
  unfold extract_parties, extract_dates, extract_monetary_values,
    extract_obligations, extract_legal_terms. cbv zeta.
  repeat split;
    try (rewrite length_take; lia);
    try (apply MergeProps.NoDup_take_list, list_of_set_NoDup).
  apply MergeProps.NoDup_take_list, NoDup_map_bool_filter.
  apply (bool_decide_unpack _). vm_compute. exact I.
Qed.

End ExtractorProps.

(* ===================================================================== *)
(** * Properties of the entity endpoint                                   *)
(* ===================================================================== *)

Module EndpointProps.

Import Entities Granite Router.

(** The AI extractor never raises, and its dict has the five category
    keys. *)
Lemma extract_entities_with_ai_total (text : pystr) (w : World) (s : Sys) :
  ∃ ai s',
    extract_entities_with_ai text w s = (Ok ai, s')
    ∧ dom ai = list_to_set categories.
Proof.
  rewrite GraniteProps.extract_entities_with_ai_run.
  pose proof ParserProps.empty_entities_dom as Hempty.
  destruct (model_loaded _); [|by eexists _, _].
  destruct (generate_response _ _ _ _ _) as [[response|e] s'].
  - eexists _, _. split; [reflexivity|].
    by rewrite ParserProps.parse_entities_dom.
  - by eexists _, _.
Qed.

(** The handler never takes its fallback branch: for every text,
    environment and state it answers with the merge of the AI dict (which
    has the five category keys) and the rule-based dict. *)
Theorem extract_entities_is_the_merge (O : SetOrder) (text : pystr)
    (w : World) (s : Sys) :
  ∃ ai s',
    extract_entities_with_ai text w s = (Ok ai, s')
    ∧ dom ai = list_to_set categories
    ∧ extract_entities O text w s
      = (Ok (merge_entity_results O ai (extract_entities_rule_based O text)), s').
Proof.
  destruct (extract_entities_with_ai_total text w s) as (ai & s' & E & Hdom).
  exists ai, s'. split; [done|]. split; [done|].
  unfold extract_entities, try_except, mbind, M_bind. by rewrite E.
Qed.

End EndpointProps.

(* ===================================================================== *)
(** * Facts about trimming and occurrences                                *)
(* ===================================================================== *)

Module StrProps.

(** [x] occurs in [text] as a contiguous piece. *)
Definition occurs_in (x text : pystr) : Prop := ∃ a b, text = a ++ x ++ b.

Lemma occurs_in_refl (s : pystr) : occurs_in s s.
Proof. exists [], []. by rewrite app_nil_r. Qed.

Lemma occurs_in_trans (x y z : pystr) :
  occurs_in x y → occurs_in y z → occurs_in x z.
Proof.
  intros (a & b & ->) (c & d & ->). exists (c ++ a), (b ++ d).
  by rewrite <- !app_assoc.
Qed.

Lemma occurs_in_suffix (x s s' : pystr) :
  occurs_in x s' → s' `suffix_of` s → occurs_in x s.
Proof.
  intros (a & b & ->) (k & ->). exists (k ++ a), b. by rewrite <- app_assoc.
Qed.

(** ** [lstrip_by] *)

Lemma lstrip_by_suffix (p : N -> bool) (s : pystr) :
  lstrip_by p s `suffix_of` s.
Proof.
  induction s as [|c s IH]; simpl; [done|].
  destruct (p c); [by apply suffix_cons_r|done].
Qed.

Lemma lstrip_by_head (p : N -> bool) (s : pystr) (c : N) (r : pystr) :
  lstrip_by p s = c :: r → p c = false.
Proof.
  induction s as [|d s IH]; simpl; [done|].
  destruct (p d) eqn:Hd; [done|]. by intros [= <- _].
Qed.

Lemma lstrip_by_fixed (p : N -> bool) (c : N) (r : pystr) :
  p c = false → lstrip_by p (c :: r) = c :: r.
Proof. intros Hc. simpl. by rewrite Hc. Qed.

Lemma lstrip_by_idem (p : N -> bool) (s : pystr) :
  lstrip_by p (lstrip_by p s) = lstrip_by p s.
Proof.
  destruct (lstrip_by p s) as [|c r] eqn:E; [done|].
  apply lstrip_by_fixed. by eapply lstrip_by_head.
Qed.

(** Stripping the front of a string that ends in a character outside the
    class leaves that last character in place. *)
Lemma lstrip_by_snoc (p : N -> bool) (u : pystr) (c : N) :
  p c = false → ∃ u', lstrip_by p (u ++ [c]) = u' ++ [c].
Proof.
  intros Hc. induction u as [|d u IH]; simpl.
  - rewrite Hc. by exists [].
  - destruct (p d); [done|]. by exists (d :: u).
Qed.

(** ** [strip] *)

Lemma strip_nil : strip [] = [].
Proof. reflexivity. Qed.

(** A trimmed string is empty or starts with a character that is no
    white space. *)
Lemma strip_head (s : pystr) (c : N) (r : pystr) :
  strip s = c :: r → isspace c = false.
Proof.
  unfold strip, rstrip, lstrip.
  destruct (lstrip_by isspace s) as [|d t] eqn:Et; [done|].
  pose proof (lstrip_by_head _ _ _ _ Et) as Hd.
  simpl rev.
  destruct (lstrip_by_snoc isspace (rev t) d Hd) as (u' & ->).
  rewrite rev_app_distr. simpl. by intros [= <- _].
Qed.

(** Trimming is idempotent. *)
Lemma strip_idem (s : pystr) : strip (strip s) = strip s.
Proof.
  destruct (strip s) as [|c r] eqn:E; [done|].
  pose proof (strip_head s c r E) as Hc.
  unfold strip at 1, rstrip, lstrip.
  rewrite (lstrip_by_fixed isspace c r Hc).
  assert (Hfix : lstrip_by isspace (rev (c :: r)) = rev (c :: r)).
  { rewrite <- E. unfold strip, rstrip. rewrite rev_involutive.
    apply lstrip_by_idem. }
  by rewrite Hfix, rev_involutive.
Qed.

(** The trimmed string occurs in the original. *)
Lemma strip_occurs (s : pystr) : occurs_in (strip s) s.
Proof.
  unfold strip, rstrip, lstrip.
  destruct (lstrip_by_suffix isspace s) as (a & Ha).
  destruct (lstrip_by_suffix isspace (rev (lstrip_by isspace s))) as (b & Hb).
  exists a, (rev b).
  rewrite Ha at 1. f_equal.
  rewrite <- (rev_involutive (lstrip_by isspace s)) at 1.
  rewrite Hb at 1. by rewrite rev_app_distr.
Qed.

Lemma strip_length_le (s : pystr) : (length (strip s) ≤ length s)%nat.
Proof.
  destruct (strip_occurs s) as (a & b & E).
  rewrite E at 2. rewrite !length_app. lia.
Qed.

End StrProps.

(* ===================================================================== *)
(** * Matches are pieces of the text                                      *)
(* ===================================================================== *)

Module ReProps.

Import StrProps.

(** The repetition loop of [Re.rmatch], under a name: [m] matches the
    body once, [k] continues after the repetition. *)
Definition rep_loop {R : Type}
    (m : option N -> pystr -> (option N -> pystr -> option R) -> option R)
    (k : option N -> pystr -> option R) :=
  fix loop (fuel lo : nat) (hi : option nat) (prev : option N) (s : pystr)
      {struct fuel} : option R :=
    let stop := match lo with O => k prev s | S _ => None end in
    match fuel with
    | O => stop
    | S fuel' =>
      match hi with
      | Some O => stop
      | _ =>
        match m prev s (fun p' s' =>
                if (length s' <? length s)%nat
                then loop fuel' (pred lo) (pred <$> hi) p' s'
                else None) with
        | Some x => Some x
        | None => stop
        end
      end
    end.

Lemma rmatch_repeat {R : Type} (ic : bool) (lo : nat) (hi : option nat)
    (body : Re.regex) (prev : option N) (s : pystr)
    (k : option N -> pystr -> option R) :
  Re.rmatch ic (Re.RRepeat lo hi body) prev s k
  = rep_loop (Re.rmatch ic body) k (S (length s)) lo hi prev s.
Proof. reflexivity. Qed.

Lemma rep_loop_suffix {R : Type}
    (m : option N -> pystr -> (option N -> pystr -> option R) -> option R)
    (k : option N -> pystr -> option R) :
  (∀ prev s k' x, m prev s k' = Some x →
     ∃ p' s', s' `suffix_of` s ∧ k' p' s' = Some x) →
  ∀ fuel lo hi prev s x,
    rep_loop m k fuel lo hi prev s = Some x →
    ∃ p' s', s' `suffix_of` s ∧ k p' s' = Some x.
Proof.
  intros Hm. induction fuel as [|fuel IHf]; intros lo hi prev s x; simpl.
  - destruct lo; [|done]. intros Hk. by exists prev, s.
  - assert (Hstop : match lo with O => k prev s | S _ => None end = Some x →
              ∃ p' s', s' `suffix_of` s ∧ k p' s' = Some x).
    { destruct lo; [|done]. intros Hk. by exists prev, s. }
    assert (Hstep : ∀ hi',
      match m prev s (fun p' s' =>
              if (length s' <? length s)%nat
              then rep_loop m k fuel (pred lo) hi' p' s' else None) with
      | Some y => Some y
      | None => match lo with O => k prev s | S _ => None end
      end = Some x →
      ∃ p' s', s' `suffix_of` s ∧ k p' s' = Some x).
    { intros hi'.
      destruct (m prev s _) as [y|] eqn:E; [|exact Hstop].
      intros [= ->]. apply Hm in E as (p1 & s1 & Hs1 & E).
      destruct (_ <? _)%nat; [|done].
      apply IHf in E as (p2 & s2 & Hs2 & E).
      exists p2, s2. split; [by etrans|done]. }
    destruct hi as [[|hi]|]; [exact Hstop|apply Hstep|apply Hstep].
Qed.

(** Whatever the matcher hands to its continuation is a suffix of the
    text it started from. *)
Lemma rmatch_suffix {R : Type} (ic : bool) (r : Re.regex) :
  ∀ (prev : option N) (s : pystr) (k : option N -> pystr -> option R) (x : R),
    Re.rmatch ic r prev s k = Some x →
    ∃ p' s', s' `suffix_of` s ∧ k p' s' = Some x.
Proof.
  induction r as [a|neg items| | |r1 IH1 r2 IH2|r1 IH1 r2 IH2|lo hi body IH];
    intros prev s k x.
  - simpl. destruct s as [|c s']; [done|].
    destruct (Re.char_matches ic a c); [|done].
    intros Hk. exists (Some c), s'. split; [by apply suffix_cons_r|done].
  - simpl. destruct s as [|c s']; [done|].
    destruct (xorb _ _); [|done].
    intros Hk. exists (Some c), s'. split; [by apply suffix_cons_r|done].
  - simpl. destruct (xorb _ _); [|done]. intros Hk. by exists prev, s.
  - simpl. intros Hk. by exists prev, s.
  - simpl. intros H. apply IH1 in H as (p1 & s1 & Hs1 & H).
    apply IH2 in H as (p2 & s2 & Hs2 & H).
    exists p2, s2. split; [by etrans|done].
  - simpl. destruct (Re.rmatch ic r1 prev s k) as [y|] eqn:E1.
    + intros [= <-]. by apply IH1 in E1.
    + apply IH2.
  - rewrite rmatch_repeat. by apply rep_loop_suffix.
Qed.

Lemma match_here_suffix (ic : bool) (r : Re.regex) (prev : option N)
    (s rest : pystr) :
  Re.match_here ic r prev s = Some rest → rest `suffix_of` s.
Proof.
  unfold Re.match_here. intros H.
  apply rmatch_suffix in H as (p' & s' & Hs & [= <-]). done.
Qed.

Lemma take_before_suffix (s rest : pystr) :
  rest `suffix_of` s → take (length s - length rest) s ++ rest = s.
Proof.
  intros (pre & ->). by rewrite length_app, Nat.add_sub, take_app_length.
Qed.

(** The matched text followed by the rest is a suffix of the text
    searched. *)
Lemma search_from_split (ic : bool) (r : Re.regex) (prev : option N)
    (s m rest : pystr) :
  Re.search_from ic r prev s = Some (m, rest) → (m ++ rest) `suffix_of` s.
Proof.
  revert prev. induction s as [|c s IH]; intros prev; cbn [Re.search_from].
  - destruct (Re.match_here ic r prev []) as [rest'|] eqn:E; [|done].
    intros [= <- <-]. by apply match_here_suffix in E.
  - destruct (Re.match_here ic r prev (c :: s)) as [rest'|] eqn:E.
    + intros [= <- <-]. apply match_here_suffix in E.
      pose proof (take_before_suffix (c :: s) rest' E) as T.
      cbn [length] in T. by rewrite T.
    + intros H. apply IH in H. by apply suffix_cons_r.
Qed.

Lemma findall_go_occurs (fuel : nat) (ic : bool) (r : Re.regex) :
  ∀ (prev : option N) (s m : pystr),
    m ∈ Re.findall_go fuel ic r prev s → occurs_in m s.
Proof.
  induction fuel as [|fuel IH]; intros prev s m; simpl.
  - by intros ?%elem_of_nil.
  - destruct (Re.search_from ic r prev s) as [[m' rest]|] eqn:E;
      [|by intros ?%elem_of_nil].
    apply search_from_split in E as (pre & E).
    intros [->|Hin]%elem_of_cons.
    + by exists pre, rest.
    + assert (Hrest : occurs_in m rest).
      { destruct m' as [|c m'].
        - destruct rest as [|c rest']; [by apply elem_of_nil in Hin|].
          apply IH in Hin. eapply occurs_in_suffix; [done|].
          by apply suffix_cons_r.
        - by apply IH in Hin. }
      eapply occurs_in_suffix; [done|]. exists (pre ++ m'). by rewrite <- app_assoc.
Qed.

(** Every text returned by [findall] occurs in the text searched. *)
Lemma findall_occurs (pattern text : pystr) (flags : list Re.flag) (m : pystr) :
  m ∈ Re.findall pattern text flags → occurs_in m text.
Proof.
  unfold Re.findall. destruct (Re.compile pattern); [|by intros ?%elem_of_nil].
  apply findall_go_occurs.
Qed.

End ReProps.

(* ===================================================================== *)
(** * What the patterns can match                                         *)
(* ===================================================================== *)

Module RegexLang.

Import StrProps.


(** ** The matcher stays within these texts *)







(** ** Characters a pattern never matches *)



(** ** Patterns that end in one given character *)








(** ** Patterns that open with a visible character *)








End RegexLang.

(* ===================================================================== *)
(** * What the pattern extractor returns                                  *)
(* ===================================================================== *)

Module ExtractorItems.

Import Entities StrProps.

Lemma elem_of_flat_map (f : pystr -> list pystr) (l : list pystr) (x : pystr) :
  x ∈ flat_map f l ↔ ∃ y, y ∈ l ∧ x ∈ f y.
Proof.
  rewrite list_elem_of_In, in_flat_map. split; intros (y & Hy & Hx); exists y.
  - by rewrite !list_elem_of_In.
  - by rewrite <- !list_elem_of_In.
Qed.

Lemma elem_of_map (f : pystr -> pystr) (l : list pystr) (x : pystr) :
  x ∈ map f l ↔ ∃ y, x = f y ∧ y ∈ l.
Proof. apply (list_elem_of_fmap f). Qed.

(** The pooled matches of a pattern list occur in the text. *)
Lemma pooled_matches_occur (patterns : list pystr) (text : pystr)
    (flags : list Re.flag) (x : pystr) :
  x ∈ flat_map (fun pattern => Re.findall pattern text flags) patterns →
  occurs_in x text.
Proof.
  intros (p & _ & Hx)%elem_of_flat_map. by eapply ReProps.findall_occurs.
Qed.

(** Every party, date, monetary value and obligation returned for a text
    occurs in that text as a contiguous piece: the extractor returns
    pieces of the document, never text of its own. *)
Theorem extracted_items_occur_in_text (O : SetOrder) (text : pystr) :
  (∀ x, x ∈ extract_parties O text → occurs_in x text)
  ∧ (∀ x, x ∈ extract_dates O text → occurs_in x text)
  ∧ (∀ x, x ∈ extract_monetary_values O text → occurs_in x text)
  ∧ (∀ x, x ∈ extract_obligations text → occurs_in x text).
Proof.
  split; [|split; [|split]]; intros x Hx.
  - unfold extract_parties in Hx. cbv zeta in Hx.
    apply MergeProps.elem_of_take_list, list_of_set_elem in Hx.
    apply elem_of_map in Hx as (m & -> & Hm).
    apply MergeProps.elem_of_bool_filter in Hm as [Hm _].
    apply pooled_matches_occur in Hm.
    eapply occurs_in_trans; [apply strip_occurs|done].
  - unfold extract_dates in Hx. cbv zeta in Hx.
    apply MergeProps.elem_of_take_list, list_of_set_elem in Hx.
    by eapply pooled_matches_occur.
  - unfold extract_monetary_values in Hx. cbv zeta in Hx.
    apply MergeProps.elem_of_take_list, list_of_set_elem in Hx.
    by eapply pooled_matches_occur.
  - unfold extract_obligations in Hx. cbv zeta in Hx.
    apply MergeProps.elem_of_take_list in Hx.
    apply MergeProps.elem_of_bool_filter in Hx as [Hx _].
    apply elem_of_flat_map in Hx as (p & _ & Hx).
    apply elem_of_map in Hx as (m & -> & Hm).
    apply ReProps.findall_occurs in Hm.
    eapply occurs_in_trans; [apply strip_occurs|done].
Qed.

Lemma sublist_map_bool_filter (g : pystr -> pystr) (f : pystr -> bool)
    (l : list pystr) :
  map g (List.filter f l) `sublist_of` map g l.
Proof.
  induction l as [|x l IH]; simpl; [done|].
  destruct (f x); simpl; [by apply sublist_skip|by apply sublist_cons].
Qed.

Lemma titled_filter_elem (f : pystr -> bool) (terms : list pystr) (n : nat)
    (x : pystr) :
  x ∈ take n (map title (List.filter f terms)) →
  ∃ term, term ∈ terms ∧ x = title term ∧ f term = true.
Proof.
  intros Hx. apply MergeProps.elem_of_take_list in Hx.
  apply elem_of_map in Hx as (term & -> & Hterm).
  apply MergeProps.elem_of_bool_filter in Hterm as [Hterm Hf].
  by exists term.
Qed.

Lemma party_shape (O : SetOrder) (text x : pystr) :
  x ∈ extract_parties O text → strip x = x ∧ (3 < length x)%nat.
Proof.
  intros Hx. unfold extract_parties in Hx. cbv zeta in Hx.
  apply MergeProps.elem_of_take_list, list_of_set_elem in Hx.
  apply elem_of_map in Hx as (m & -> & Hm).
  apply MergeProps.elem_of_bool_filter in Hm as [_ Hlen].
  split; [apply strip_idem|]. by apply Nat.ltb_lt.
Qed.

Lemma obligation_shape (text x : pystr) :
  x ∈ extract_obligations text →
  strip x = x ∧ (20 < length x)%nat ∧ (length x < 200)%nat.
Proof.
  intros Hx. unfold extract_obligations in Hx. cbv zeta in Hx.
  apply MergeProps.elem_of_take_list in Hx.
  apply MergeProps.elem_of_bool_filter in Hx as [Hx Hlen].
  apply andb_true_iff in Hlen as [H1 H2].
  apply Nat.ltb_lt in H1, H2.
  apply elem_of_flat_map in Hx as (p & _ & Hx).
  apply elem_of_map in Hx as (m & -> & Hm).
  split; [apply strip_idem|done].
Qed.

Lemma titled_filter_sublist (f : pystr -> bool) (terms : list pystr) (n : nat) :
  take n (map title (List.filter f terms)) `sublist_of` map title terms.
Proof. etrans; [apply sublist_take|apply sublist_map_bool_filter]. Qed.

Lemma legal_term_found (text x : pystr) :
  x ∈ extract_legal_terms text →
  ∃ term, term ∈ legal_terms ∧ x = title term
    ∧ is_Some (Re.search (str "\b" ++ Re.escape term ++ str "\b") text
                         [Re.IGNORECASE]).
Proof.
  intros Hx.
  destruct (titled_filter_elem _ legal_terms 8 x Hx)
    as (term & Hterm & Hx' & Hfound).
  exists term. split; [exact Hterm|]. split; [exact Hx'|].
  exact (bool_decide_eq_true_1 _ Hfound).
Qed.

(** Every party returned is trimmed and longer than 3 characters; every
    obligation is trimmed and has more than 20 and fewer than 200
    characters; the legal terms are title-cased entries of the fixed
    vocabulary, in the order of the vocabulary, each of them found in the
    text as a whole word without regard to case. *)
Theorem extracted_items_shape (O : SetOrder) (text : pystr) :
  (∀ x, x ∈ extract_parties O text → strip x = x ∧ (3 < length x)%nat)
  ∧ (∀ x, x ∈ extract_obligations text →
       strip x = x ∧ (20 < length x)%nat ∧ (length x < 200)%nat)
  ∧ extract_legal_terms text `sublist_of` map title legal_terms
  ∧ (∀ x, x ∈ extract_legal_terms text →
       ∃ term, term ∈ legal_terms ∧ x = title term
         ∧ is_Some (Re.search (str "\b" ++ Re.escape term ++ str "\b") text
                              [Re.IGNORECASE])).
Proof.
  split; [|split; [|split]].
  - intros x. apply party_shape.
  - intros x. apply obligation_shape.
  - exact (titled_filter_sublist _ legal_terms 8).
  - intros x. apply legal_term_found.
Qed.

End ExtractorItems.

(* ===================================================================== *)
(** * Invariants of the entity parser                                     *)
(* ===================================================================== *)

Module ParserInvariants.

Import Entities Granite StrProps.

(** A string that is non-empty and equal to its trimmed form. *)
Definition trimmed (x : pystr) : Prop := x ≠ [] ∧ strip x = x.

(** Every item of every category is [trimmed]. *)
Definition all_trimmed (entities : entity_dict) : Prop :=
  map_Forall (fun _ items => Forall trimmed items) entities.

Lemma truthy_spec (s : pystr) : truthy s = true ↔ s ≠ [].
Proof. by destruct s. Qed.

Lemma strip_truthy_trimmed (y : pystr) : truthy (strip y) = true → trimmed (strip y).
Proof. intros H. split; [by apply truthy_spec|apply strip_idem]. Qed.

Lemma inline_items_trimmed (xs : list pystr) :
  Forall trimmed (map strip (List.filter (fun item => truthy (strip item)) xs)).
Proof.
  apply Forall_forall. intros x (y & -> & Hy)%(list_elem_of_fmap strip).
  apply MergeProps.elem_of_bool_filter in Hy as [_ Hy].
  by apply strip_truthy_trimmed.
Qed.

(** ** Items are trimmed and non-empty *)

Lemma extend_trimmed (entities entities' : entity_dict) (key : option pystr)
    (items : list pystr) :
  all_trimmed entities → Forall trimmed items →
  extend entities key items = Ok entities' → all_trimmed entities'.
Proof.
  intros Hall Hitems. unfold extend. destruct key as [k|]; [|done].
  destruct (entities !! k) as [l|] eqn:Hk; [|done].
  intros [= <-]. apply map_Forall_insert_2; [|done].
  apply Forall_app_2; [|done]. by apply (Hall k).
Qed.

Lemma header_branch_trimmed (entities : entity_dict) (line header placeholder
    category : pystr) (st' : parse_state) :
  all_trimmed entities →
  header_branch entities line header placeholder category = Ok st' →
  all_trimmed (fst st').
Proof.
  intros Hall. unfold header_branch. cbv zeta.
  destruct (_ && _); [|by intros [= <-]].
  destruct (extend _ _ _) as [entities'|e] eqn:Hext; [|done].
  intros [= <-]. eapply extend_trimmed; [done|apply inline_items_trimmed|done].
Qed.

Lemma parse_entity_line_trimmed (st st' : parse_state) (line : pystr) :
  all_trimmed (fst st) → parse_entity_line st line = Ok st' →
  all_trimmed (fst st').
Proof.
  unfold parse_entity_line. destruct st as [entities cursor]. cbv zeta.
  intros Hall.
  repeat (destruct (startswith _ _); [by apply header_branch_trimmed|]).
  destruct (_ || _); [|by intros [= <-]].
  destruct (truthy _) eqn:Hitem; [|by intros [= <-]].
  destruct (extend _ _ _) as [entities'|e] eqn:Hext; [|done].
  intros [= <-]. eapply extend_trimmed; [done| |done].
  apply Forall_singleton. by apply strip_truthy_trimmed.
Qed.

Lemma parse_entity_lines_trimmed (lines : list pystr) (st : parse_state) :
  all_trimmed (fst st) → all_trimmed (parse_entity_lines st lines).
Proof.
  revert st. induction lines as [|line lines IH]; intros st Hall; simpl; [done|].
  destruct (parse_entity_line st line) as [st'|e] eqn:Hline; [|done].
  apply IH. by eapply parse_entity_line_trimmed.
Qed.

Lemma empty_entities_trimmed : all_trimmed empty_entities.
Proof.
  unfold empty_entities.
  repeat (apply map_Forall_insert_2; [constructor|]).
  apply map_Forall_empty.
Qed.

(** Whatever the reply, every item the entity parser returns is non-empty
    and has no leading or trailing white space. *)
Theorem parsed_items_are_trimmed (response : pystr) :
  map_Forall (fun _ items => Forall (fun x => x ≠ [] ∧ strip x = x) items)
             (parse_entities response).
Proof.
  apply parse_entity_lines_trimmed, empty_entities_trimmed.
Qed.

(** ** Items are only ever added, at the end *)

Lemma extend_grows (entities entities' : entity_dict) (key : option pystr)
    (items : list pystr) (k : pystr) :
  extend entities key items = Ok entities' →
  get entities k `prefix_of` get entities' k.
Proof.
  unfold extend. destruct key as [c|]; [|done].
  destruct (entities !! c) as [l|] eqn:Hc; [|done].
  intros [= <-]. unfold get. destruct (decide (c = k)) as [->|Hne].
  - rewrite lookup_insert_eq, Hc. simpl. by apply prefix_app_r.
  - by rewrite lookup_insert_ne.
Qed.

Lemma header_branch_grows (entities : entity_dict) (line header placeholder
    category : pystr) (st' : parse_state) (k : pystr) :
  header_branch entities line header placeholder category = Ok st' →
  get entities k `prefix_of` get (fst st') k.
Proof.
  unfold header_branch. cbv zeta.
  destruct (_ && _); [|by intros [= <-]].
  destruct (extend _ _ _) as [entities'|e] eqn:Hext; [|done].
  intros [= <-]. by eapply extend_grows.
Qed.

Lemma parse_entity_line_grows (st st' : parse_state) (line k : pystr) :
  parse_entity_line st line = Ok st' →
  get (fst st) k `prefix_of` get (fst st') k.
Proof.
  unfold parse_entity_line. destruct st as [entities cursor]. cbv zeta.
  repeat (destruct (startswith _ _); [by apply header_branch_grows|]).
  destruct (_ || _); [|by intros [= <-]].
  destruct (truthy _); [|by intros [= <-]].
  destruct (extend _ _ _) as [entities'|e] eqn:Hext; [|done].
  intros [= <-]. by eapply extend_grows.
Qed.

Lemma parse_entity_lines_grows (lines : list pystr) (st : parse_state) (k : pystr) :
  get (fst st) k `prefix_of` get (parse_entity_lines st lines) k.
Proof.
  revert st. induction lines as [|line lines IH]; intros st; simpl; [done|].
  destruct (parse_entity_line st line) as [st'|e] eqn:Hline; [|done].
  etrans; [by eapply parse_entity_line_grows|apply IH].
Qed.

Lemma parse_entity_lines_app (lines more : list pystr) (st : parse_state)
    (k : pystr) :
  get (parse_entity_lines st lines) k
    `prefix_of` get (parse_entity_lines st (lines ++ more)) k.
Proof.
  revert st. induction lines as [|line lines IH]; intros st; simpl.
  - apply parse_entity_lines_grows.
  - destruct (parse_entity_line st line) as [st'|e]; [apply IH|done].
Qed.

(** Splitting at a one-character separator distributes over an
    occurrence of the separator. *)
Lemma split_go_char_app (c : N) (r1 r2 cur : pystr) :
  split_go [c] O cur (r1 ++ c :: r2)
  = split_go [c] O cur r1 ++ split_go [c] O [] r2.
Proof.
  revert cur. induction r1 as [|d r1 IH]; intros cur; simpl;
    rewrite ?ParserProps.startswith_nil, ?andb_true_r.
  - by rewrite N.eqb_refl.
  - destruct (c =? d); simpl; by rewrite IH.
Qed.

(** Further lines at the end of a reply leave the items parsed so far in
    place: for every category, what is parsed from a reply is a prefix of
    what is parsed from the reply followed by a line feed and more
    text. *)
Theorem longer_reply_only_adds_items (reply more : pystr) (category : pystr) :
  get (parse_entities reply) category
    `prefix_of` get (parse_entities (reply ++ [LF] ++ more)) category.
Proof.
  unfold parse_entities, split. simpl app.
  rewrite split_go_char_app. apply parse_entity_lines_app.
Qed.

End ParserInvariants.

(* ===================================================================== *)
(** * The entity parser on a header line                                  *)
(* ===================================================================== *)

Module ParserHeaders.

Import Entities Granite.

(** The sections of the reply: header, placeholder of the prompt, and
    category. *)
Definition entity_sections : list (pystr * pystr * pystr) :=
  [(str "PARTIES:",
    str "[list the individuals, companies, or organizations involved]",
    str "parties");
   (str "DATES:", str "[list all dates mentioned]", str "dates");
   (str "MONETARY VALUES:",
    str "[list all money amounts, fees, or financial terms]",
    str "monetary_values");
   (str "OBLIGATIONS:",
    str "[list key duties, responsibilities, or requirements]",
    str "obligations");
   (str "LEGAL TERMS:",
    str "[list important legal concepts or technical terms]",
    str "legal_terms")].

(** The items that follow a header on its own line. *)
Definition inline_items (line header placeholder : pystr) : list pystr :=
  let items := strip (replace line header []) in
  if truthy items && negb (eqb items placeholder)
  then map strip (List.filter (fun item => truthy (strip item))
                              (split items (str ",")))
  else [].

(** The first characters of two strings differ. *)
Definition first_differs (h1 h2 : pystr) : bool :=
  match h1, h2 with
  | a :: _, b :: _ => negb (a =? b)
  | _, _ => false
  end.

(** Two headers with different first characters cannot both open a
    line. *)
Lemma startswith_distinct (l h1 h2 : pystr) :
  first_differs h1 h2 = true →
  startswith l h1 = true → startswith l h2 = false.
Proof.
  destruct h1 as [|a p]; [done|]. destruct h2 as [|b q]; [done|].
  cbn [first_differs]. intros Hne%negb_true_iff.
  destruct l as [|c l]; [done|].
  cbn [startswith]. intros [Ha _]%andb_true_iff. apply N.eqb_eq in Ha as ->.
  apply andb_false_iff. left. by rewrite N.eqb_sym.
Qed.

Lemma header_branch_run (entities : entity_dict) (line header placeholder
    category : pystr) (items : list pystr) :
  entities !! category = Some items →
  header_branch entities line header placeholder category
  = Ok (<[category := items ++ inline_items line header placeholder]> entities,
        Some category).
Proof.
  intros Hitems. unfold header_branch, inline_items. cbv zeta.
  destruct (_ && _).
  - unfold extend. by rewrite Hitems.
  - by rewrite app_nil_r, insert_id.
Qed.

(** A line that opens with a section header moves the cursor to the
    header's category, whatever the cursor was, and appends to that
    category the comma-separated items that follow the header on the
    line, trimmed and without empty ones; nothing is appended when the
    rest of the line is empty or is the placeholder of the prompt. *)
Theorem header_line_moves_cursor (entities : entity_dict)
    (cursor : option pystr) (line header placeholder category : pystr)
    (items : list pystr) :
  (header, placeholder, category) ∈ entity_sections →
  startswith (strip line) header = true →
  entities !! category = Some items →
  parse_entity_line (entities, cursor) line
  = Ok (<[category := items ++ inline_items (strip line) header placeholder]>
          entities,
        Some category).
Proof.
  intros Hsec Hstart Hitems. unfold entity_sections in Hsec.
  unfold parse_entity_line. cbv zeta.
  repeat (apply elem_of_cons in Hsec as [[= -> -> ->]|Hsec]);
    [..|by apply elem_of_nil in Hsec];
    repeat match goal with
    | Hs : startswith (strip line) ?h1 = true
      |- context [startswith (strip line) ?h] =>
      first
        [ rewrite Hs
        | rewrite (startswith_distinct (strip line) h1 h eq_refl Hs) ]
    end;
    cbv match; by apply header_branch_run.
Qed.

Lemma header_line_moves_cursor_witness :
  parse_entity_line (empty_entities, Some (str "parties"))
                    (str "  DATES: 5 January 2024, , within 30 days ")
  = Ok (<[str "dates" :=
            [] ++ inline_items (strip (str "  DATES: 5 January 2024, , within 30 days "))
                    (str "DATES:") (str "[list all dates mentioned]")]>
          empty_entities,
        Some (str "dates")).
Proof.
  apply header_line_moves_cursor.
  - apply (bool_decide_unpack _). vm_compute. exact I.
  - vm_compute. reflexivity.
  - vm_compute. reflexivity.
Defined.

End ParserHeaders.

(* ===================================================================== *)
(** * The fields of a parsed classification                               *)
(* ===================================================================== *)

Module ClassificationFields.

Import Entities Granite.

(** The value a line gives for a header, if it opens with the header and
    the rest of the line is not blank. *)
Definition header_value (header line : pystr) : list pystr :=
  let line := strip line in
  if startswith line header && truthy (strip (replace line header []))
  then [strip (replace line header [])]
  else [].

(** The effect of a line on the confidence. *)
Definition confidence_step (conf : PyFloat.float) (line : pystr) : PyFloat.float :=
  let line := strip line in
  if startswith line (str "Confidence:")
  then parse_confidence (strip (replace line (str "Confidence:") [])) conf
  else conf.

Lemma last_cons_default (x : pystr) (l : list pystr) (d d' : pystr) :
  List.last (x :: l) d = List.last (x :: l) d'.
Proof.
  revert x. induction l as [|y l IH]; intros x; [done|].
  change (List.last (x :: y :: l) d) with (List.last (y :: l) d).
  change (List.last (x :: y :: l) d') with (List.last (y :: l) d').
  apply IH.
Qed.

Lemma last_app_default (a b : list pystr) (d : pystr) :
  List.last (a ++ b) d = List.last b (List.last a d).
Proof.
  revert d. induction a as [|x a IH]; intros d; [done|].
  destruct a as [|y a].
  - destruct b as [|z b]; [done|].
    change (List.last (z :: b) d = List.last (z :: b) x).
    apply last_cons_default.
  - change (List.last ((x :: y :: a) ++ b) d)
      with (List.last ((y :: a) ++ b) d).
    by rewrite IH.
Qed.

Lemma classification_line_fields (result : Classification) (line : pystr) :
  type (parse_classification_line result line)
    = List.last (header_value (str "Type:") line) (type result)
  ∧ description (parse_classification_line result line)
    = List.last (header_value (str "Description:") line) (description result)
  ∧ confidence (parse_classification_line result line)
    = confidence_step (confidence result) line.
Proof.
  unfold parse_classification_line, header_value, confidence_step. cbv zeta.
  set (l := strip line).
  destruct (startswith l (str "Type:")) eqn:E1.
  { rewrite (ParserHeaders.startswith_distinct l (str "Type:") (str "Description:") eq_refl E1).
    rewrite (ParserHeaders.startswith_distinct l (str "Type:") (str "Confidence:") eq_refl E1).
    simpl. by destruct (truthy _). }
  destruct (startswith l (str "Confidence:")) eqn:E2.
  { by rewrite (ParserHeaders.startswith_distinct l (str "Confidence:") (str "Description:") eq_refl E2). }
  destruct (startswith l (str "Description:")) eqn:E3.
  { simpl. by destruct (truthy _). }
  simpl. destruct (startswith l (str "Key Characteristics:")); [done|].
  destruct (_ || _); [|done]. by destruct (truthy _).
Qed.

Lemma classification_fold_fields (lines : list pystr) (result : Classification) :
  type (foldl parse_classification_line result lines)
    = List.last (flat_map (header_value (str "Type:")) lines) (type result)
  ∧ description (foldl parse_classification_line result lines)
    = List.last (flat_map (header_value (str "Description:")) lines)
                (description result)
  ∧ confidence (foldl parse_classification_line result lines)
    = foldl confidence_step (confidence result) lines.
Proof.
  revert result. induction lines as [|line lines IH]; intros result; [done|].
  cbn [foldl flat_map]. rewrite !last_app_default.
  destruct (IH (parse_classification_line result line)) as (-> & -> & ->).
  by destruct (classification_line_fields result line) as (-> & -> & ->).
Qed.

(** The document type of a parsed classification is the value of the
    last [Type:] line of the reply whose value is not blank, and the
    generic type when there is none; the description is that of the last
    non-blank [Description:] line, or the default; the confidence results
    from the [Confidence:] lines alone, taken in order from 0.5.  No line
    affects a field other than its own. *)
Theorem classification_fields_last_wins (response : pystr) :
  type (parse_classification response)
    = List.last (flat_map (header_value (str "Type:")) (split response [LF]))
                (str "General Legal Document")
  ∧ description (parse_classification response)
    = List.last (flat_map (header_value (str "Description:")) (split response [LF]))
                (str "Legal document analysis")
  ∧ confidence (parse_classification response)
    = foldl confidence_step (PyFloat.lit "0.5") (split response [LF]).
Proof.
  assert (Et : type default_classification = str "General Legal Document")
    by (vm_compute; reflexivity).
  assert (Ed : description default_classification = str "Legal document analysis")
    by (vm_compute; reflexivity).
  assert (Ec : confidence default_classification = PyFloat.lit "0.5")
    by (vm_compute; reflexivity).
  rewrite <- Et, <- Ed, <- Ec. unfold parse_classification.
  apply classification_fold_fields.
Qed.

End ClassificationFields.

(* ===================================================================== *)
(** * Invariants of the service state                                     *)
(* ===================================================================== *)

Module ServiceInvariants.

Import Entities Granite GraniteProps.

(** ** A loaded model is kept *)

(** What running [op] in state [s] must satisfy: it returns normally; if
    the model was loaded it leaves the service object as it was and makes
    no attempt to load; and it sends at most one request. *)
Definition keeps_model {A : Type} (w : World) (s : Sys) (op : M A) : Prop :=
  ∃ r s',
    op w s = (Ok r, s')
    ∧ (model_loaded (self s) = true →
       self s' = self s ∧ load_attempts s' = load_attempts s)
    ∧ ∃ new, issued s' = issued s ++ new ∧ (length new ≤ 1)%nat.

Lemma ensure_self_loaded (w : World) (s : Sys) :
  model_loaded (self s) = true →
  self (after_ensure w s) = self s
  ∧ load_attempts (after_ensure w s) = load_attempts s.
Proof. intros Hl. by rewrite ensure_loaded. Qed.

Lemma ensure_keeps (w : World) (s : Sys) :
  (model_loaded (self s) = true →
   self (after_ensure w s) = self s
   ∧ load_attempts (after_ensure w s) = load_attempts s)
  ∧ ∃ new, issued (after_ensure w s) = issued s ++ new ∧ (length new ≤ 1)%nat.
Proof.
  split; [apply ensure_self_loaded|].
  exists []. rewrite ensure_issued, app_nil_r. split; [done|]. simpl. lia.
Qed.

Lemma generate_response_keeps (w : World) (s : Sys) (prompt : pystr)
    (max_length : Z) (temperature : PyFloat.float) :
  keeps_model w s (generate_response prompt max_length temperature).
Proof.
  unfold keeps_model. rewrite generate_response_run. cbv zeta.
  destruct (ensure_keeps w s) as [Hself Hnone].
  destruct (available _); [destruct (tokenizer _) as [t|]|];
    eexists _, _; (split; [reflexivity|]); (split; [exact Hself|]);
    try exact Hnone.
  eexists [_]. simpl. rewrite ensure_issued. split; [done|]. lia.
Qed.

(** After the lazy load the flag is set whenever it was set before. *)
Lemma ensure_stays_loaded (w : World) (s : Sys) :
  model_loaded (self s) = true → model_loaded (self (after_ensure w s)) = true.
Proof. intros Hl. by rewrite ensure_loaded. Qed.

Lemma generate_after_ensure_keeps (w : World) (s : Sys) (prompt : pystr)
    (n : Z) :
  model_loaded (self (after_ensure w s)) = true →
  ∃ r s',
    generate_response prompt n default_temperature w (after_ensure w s)
      = (Ok r, s')
    ∧ (model_loaded (self s) = true →
       self s' = self s ∧ load_attempts s' = load_attempts s)
    ∧ ∃ new, issued s' = issued s ++ new ∧ (length new ≤ 1)%nat.
Proof.
  intros Hl.
  destruct (generate_response_keeps w (after_ensure w s) prompt n
              default_temperature) as (r & s' & E & Hkeep & new & Hnew & Hlen).
  exists r, s'. split; [done|]. split.
  - intros Hs. destruct (Hkeep Hl) as [-> ->]. by apply ensure_self_loaded.
  - exists new. by rewrite Hnew, ensure_issued.
Qed.

(** Every operation of the service returns normally (none of them lets an
    exception escape), sends at most one request to the pipeline, and,
    once the model is loaded, leaves the service object untouched and
    never tries to load again. *)
Theorem loaded_model_is_kept (w : World) (s : Sys) :
  (∀ prompt max_length temperature,
     keeps_model w s (generate_response prompt max_length temperature))
  ∧ (∀ clause_text, keeps_model w s (simplify_clause clause_text))
  ∧ (∀ text, keeps_model w s (extract_entities_with_ai text))
  ∧ (∀ text, keeps_model w s (classify_document_with_ai text))
  ∧ (∀ question context, keeps_model w s (answer_question question context)).
Proof.
  destruct (ensure_keeps w s) as [Hself Hnone].
  split; [|split; [|split; [|split]]].
  - intros. apply generate_response_keeps.
  - intros clause_text. unfold keeps_model. rewrite simplify_clause_run.
    destruct (model_loaded (self (after_ensure w s))) eqn:Hl.
    + by apply generate_after_ensure_keeps.
    + by eexists _, _.
  - intros text. unfold keeps_model. rewrite extract_entities_with_ai_run.
    destruct (model_loaded (self (after_ensure w s))) eqn:Hl.
    + destruct (generate_after_ensure_keeps w s (entities_prompt text) 400 Hl)
        as (r & s' & -> & ?). by eexists _, _.
    + by eexists _, _.
  - intros text. unfold keeps_model. rewrite classify_document_with_ai_run.
    destruct (model_loaded (self (after_ensure w s))) eqn:Hl.
    + destruct (generate_after_ensure_keeps w s (classification_prompt text) 300 Hl)
        as (r & s' & -> & ?). by eexists _, _.
    + by eexists _, _.
  - intros question context. unfold keeps_model. rewrite answer_question_run.
    destruct (truthy _).
    { eexists _, _. split; [reflexivity|]. split; [done|].
      exists []. rewrite app_nil_r. split; [done|]. simpl. lia. }
    destruct (model_loaded (self (after_ensure w s))) eqn:Hl.
    + by apply generate_after_ensure_keeps.
    + by eexists _, _.
Qed.

(** ** The flag and the handles agree *)

(** The flag is set only when model, tokenizer and pipeline are all
    present. *)
Definition consistent (g : GraniteLLMService) : Prop :=
  model_loaded g = true →
  is_Some (model g) ∧ is_Some (tokenizer g) ∧ is_Some (pipeline g).

Lemma initialize_consistent (w : World) (s : Sys) :
  consistent (self (snd (_initialize_model w s))).
Proof.
  unfold _initialize_model, try_except, mbind, M_bind, begin_load, lift_result,
    set_self, consistent.
  destruct (acquire w (load_attempts s)) as [[t|e1] [m|e2] [p|e3]]; simpl;
    try discriminate; eauto.
Qed.

Lemma ensure_consistent (w : World) (s : Sys) :
  consistent (self s) → consistent (self (after_ensure w s)).
Proof.
  intros Hc. unfold after_ensure, _ensure_model_loaded, mbind, M_bind, get_self.
  destruct (model_loaded (self s)) eqn:Hl; simpl; [done|].
  apply initialize_consistent.
Qed.

Lemma generate_response_self (w : World) (s : Sys) (prompt : pystr)
    (max_length : Z) (temperature : PyFloat.float) :
  self (snd (generate_response prompt max_length temperature w s))
  = self (after_ensure w s).
Proof.
  rewrite generate_response_run. cbv zeta.
  destruct (available _); [destruct (tokenizer _)|]; done.
Qed.

(** The service starts consistent and every operation keeps it so: in no
    state reached from the initial one is the flag set while the model,
    the tokenizer or the pipeline is missing. *)
Theorem service_stays_consistent (w : World) (s : Sys) :
  consistent (self initial)
  ∧ (consistent (self s) →
     (∀ prompt max_length temperature,
        consistent (self (snd (generate_response prompt max_length temperature w s))))
     ∧ (∀ clause_text, consistent (self (snd (simplify_clause clause_text w s))))
     ∧ (∀ text, consistent (self (snd (extract_entities_with_ai text w s))))
     ∧ (∀ text, consistent (self (snd (classify_document_with_ai text w s))))
     ∧ (∀ question context,
          consistent (self (snd (answer_question question context w s))))).
Proof.
  split; [done|]. intros Hc.
  pose proof (ensure_consistent w s Hc) as Hc1.
  assert (Hgen : ∀ prompt n,
    consistent (self (snd (generate_response prompt n default_temperature w
                             (after_ensure w s))))).
  { intros. rewrite generate_response_self. by apply ensure_consistent. }
  split; [|split; [|split; [|split]]].
  - intros. by rewrite generate_response_self.
  - intros clause_text. rewrite simplify_clause_run.
    destruct (model_loaded (self (after_ensure w s))); [apply Hgen|done].
  - intros text. rewrite extract_entities_with_ai_run.
    destruct (model_loaded (self (after_ensure w s))); [|done].
    specialize (Hgen (entities_prompt text) 400%Z).
    by destruct (generate_response _ _ _ _ _).
  - intros text. rewrite classify_document_with_ai_run.
    destruct (model_loaded (self (after_ensure w s))); [|done].
    specialize (Hgen (classification_prompt text) 300%Z).
    by destruct (generate_response _ _ _ _ _).
  - intros question context. rewrite answer_question_run.
    destruct (truthy _); [done|].
    destruct (model_loaded (self (after_ensure w s))); [apply Hgen|done].
Qed.

Lemma service_stays_consistent_witness :
  consistent (self initial)
  ∧ consistent
      (self (snd (classify_document_with_ai (str "Lease agreement")
                    (echo_world (str "Type: Lease Agreement")) initial))).
Proof.
  destruct (service_stays_consistent (echo_world (str "Type: Lease Agreement"))
              initial) as [Hinit Hkeep].
  split; [exact Hinit|]. by apply Hkeep.
Defined.

End ServiceInvariants.

(* ===================================================================== *)
(** * What [generate_response] hands back                                 *)
(* ===================================================================== *)

Module ReplyProps.

Import Entities Granite GraniteProps.

(** ** Splitting at a separator *)

Lemma startswith_app (p rest : pystr) : startswith (p ++ rest) p = true.
Proof.
  induction p as [|a p IH]; simpl; [by destruct rest|].
  by rewrite N.eqb_refl.
Qed.

Lemma startswith_inv (s p : pystr) :
  startswith s p = true → ∃ rest, s = p ++ rest.
Proof.
  revert s. induction p as [|a p IH]; intros s H.
  - by exists s.
  - destruct s as [|b s]; simpl in H; [done|].
    apply andb_true_iff in H as [Hab Hp]. apply N.eqb_eq in Hab as ->.
    destruct (IH s Hp) as [rest ->]. by exists rest.
Qed.

Lemma split_go_nonempty (sep : pystr) (s : pystr) (skip : nat) (cur : pystr) :
  split_go sep skip cur s ≠ [].
Proof.
  revert skip cur. induction s as [|c s IH]; intros skip cur; cbn [split_go];
    [done|].
  destruct skip; [|apply IH]. destruct (startswith _ _); [done|apply IH].
Qed.

Lemma last_cons_nonempty (x : pystr) (l : list pystr) :
  l ≠ [] → List.last (x :: l) [] = List.last l [].
Proof. by destruct l. Qed.

(** The characters still to be passed over are dropped. *)
Lemma split_go_skip (sep t s cur : pystr) :
  split_go sep (length t) cur (t ++ s) = split_go sep 0 cur s.
Proof. induction t as [|c t IH]; simpl; [by destruct s|done]. Qed.

(** A text in which the separator does not occur is one field. *)
Lemma split_go_absent (sep s cur : pystr) :
  contains s sep = false → split_go sep 0 cur s = [rev cur ++ s].
Proof.
  revert cur. induction s as [|c s IH]; intros cur H; simpl.
  - by rewrite app_nil_r.
  - simpl in H. apply orb_false_iff in H as [Hhere Hlater].
    destruct sep as [|a sep]; [done|].
    simpl in Hhere |- *. rewrite Hhere, (IH _ Hlater). simpl.
    by rewrite <- app_assoc.
Qed.

(** An occurrence of the separator cannot begin inside [q] and run into a
    following copy of the separator, when the first character of the
    separator occurs nowhere else in it. *)
Lemma no_straddle (a : N) (sep' q rest : pystr) :
  a ∉ sep' → q ≠ [] →
  startswith (q ++ (a :: sep') ++ rest) (a :: sep') = true →
  (length (a :: sep') ≤ length q)%nat.
Proof.
  intros Hfresh Hq Hs.
  destruct (decide (length (a :: sep') ≤ length q)%nat) as [|Hshort]; [done|].
  exfalso.
  apply startswith_inv in Hs as [tail Htail].
  assert (Hlen : (length q < length (a :: sep'))%nat) by lia.
  assert (Hth : (q ++ (a :: sep') ++ rest) !! length q = Some a).
  { rewrite lookup_app_r by lia. by rewrite Nat.sub_diag. }
  rewrite Htail, lookup_app_l in Hth by done.
  destruct q as [|b q]; [done|]. simpl in Hth.
  apply Hfresh. by eapply list_elem_of_lookup_2.
Qed.

(** Whatever precedes it, the field after a separator that is followed
    by separator-free text is that text. *)
Lemma split_go_last (a : N) (sep' : pystr) (answer : pystr) :
  a ∉ sep' → contains answer (a :: sep') = false →
  ∀ echo skip cur, (skip ≤ length echo)%nat →
    List.last (split_go (a :: sep') skip cur (echo ++ (a :: sep') ++ answer)) []
    = answer.
Proof.
  intros Hfresh Habsent. induction echo as [|c echo IH]; intros skip cur Hskip.
  - destruct skip; [|simpl in Hskip; lia].
    rewrite app_nil_l.
    change ((a :: sep') ++ answer) with (a :: sep' ++ answer).
    cbn [split_go].
    change (a :: sep' ++ answer) with ((a :: sep') ++ answer).
    rewrite startswith_app.
    rewrite last_cons_nonempty by apply split_go_nonempty.
    cbn [length pred]. rewrite split_go_skip, split_go_absent by done.
    done.
  - destruct skip as [|k].
    + change ((c :: echo) ++ (a :: sep') ++ answer)
        with (c :: (echo ++ (a :: sep') ++ answer)).
      cbn [split_go].
      change (c :: (echo ++ (a :: sep') ++ answer))
        with ((c :: echo) ++ (a :: sep') ++ answer).
      destruct (startswith _ _) eqn:Hhere.
      * apply no_straddle in Hhere; [|done|done].
        rewrite last_cons_nonempty by apply split_go_nonempty.
        apply IH. simpl in Hhere |- *. lia.
      * apply IH. lia.
    + simpl. apply IH. simpl in Hskip. lia.
Qed.

(** ** The echoed prompt is cut off *)

Lemma marker_head_fresh :
  ∃ a sep', assistant_marker = a :: sep' ∧ a ∉ sep'.
Proof.
  eexists _, _. split; [vm_compute; reflexivity|].
  apply (bool_decide_unpack _). vm_compute. exact I.
Qed.

(** The answer part of a generated text that ends in a turn marker
    followed by marker-free text is that text, trimmed: whatever stands
    before the last marker (the echoed prompt, earlier turns) is cut off. *)
Lemma answer_part_after_marker (echo answer : pystr) :
  contains answer assistant_marker = false →
  answer_part (echo ++ assistant_marker ++ answer) = strip answer.
Proof.
  intros Habsent. unfold answer_part, split.
  destruct marker_head_fresh as (a & sep' & E & Hfresh).
  rewrite E in Habsent |- *.
  rewrite (split_go_last a sep' answer Hfresh Habsent); [done|lia].
Qed.

Lemma short_or_empty (z x y : pystr) :
  (if negb (truthy z) || (length z <? 10)%nat then x else y)
  = if (length z <? 10)%nat then x else y.
Proof. by destruct z. Qed.

(** When the pipeline returns the prompt it was given followed by a
    continuation that holds no turn marker, [generate_response] returns
    the trimmed continuation (or the "more specific question" message
    when that is shorter than 10 characters): no part of the prompt, and
    no earlier turn marker in it, reaches the caller. *)
Theorem echoed_prompt_is_cut_off (w : World) (s : Sys) (prompt : pystr)
    (max_length : Z) (temperature : PyFloat.float) (t : Tokenizer)
    (o : gmap pystr pystr) (outputs : list (gmap pystr pystr))
    (continuation : pystr) :
  available (self (after_ensure w s)) = true →
  tokenizer (self (after_ensure w s)) = Some t →
  run_pipeline w (length (issued (after_ensure w s)))
    (issued_request prompt max_length (eos_token_id t)) = Ok (o :: outputs) →
  o !! str "generated_text"
    = Some (text_inputs (issued_request prompt max_length (eos_token_id t))
              ++ continuation) →
  contains continuation assistant_marker = false →
  fst (generate_response prompt max_length temperature w s)
  = Ok (if (length (strip continuation) <? 10)%nat then msg_too_short
        else strip continuation).
Proof.
  intros Hav Htok Hrun Htext Habsent.
  rewrite generate_response_run. cbv zeta. rewrite Hav, Htok. cbn [fst].
  rewrite Hrun. unfold reply_of. rewrite Htext.
  assert (E : answer_part
                (text_inputs (issued_request prompt max_length (eos_token_id t))
                   ++ continuation) = strip continuation).
  { cbn [text_inputs issued_request].
    change (str "<|assistant|>" ++ [LF]) with assistant_marker.
    rewrite <- !app_assoc.
    rewrite (app_assoc (str "<|user|>")), (app_assoc _ prompt),
      (app_assoc _ [LF] (assistant_marker ++ continuation)).
    by apply answer_part_after_marker. }
  rewrite E. f_equal.
  apply short_or_empty.
Qed.

Lemma echoed_prompt_is_cut_off_witness :
  fst (generate_response (str "What is a lease?") 200 default_temperature
         (echo_world (str " A lease is a rental contract. ")) initial)
  = Ok (str "A lease is a rental contract.").
Proof.
  rewrite (echoed_prompt_is_cut_off
             (echo_world (str " A lease is a rental contract. ")) initial
             (str "What is a lease?") 200 default_temperature
             {| eos_token_id := Some 0%Z |}
             {[ str "generated_text" :=
                  text_inputs (issued_request (str "What is a lease?") 200 (Some 0%Z))
                    ++ str " A lease is a rental contract. " ]}
             [] (str " A lease is a rental contract. "));
    reflexivity.
Defined.

End ReplyProps.

(* ===================================================================== *)
(** * Answers under failure                                               *)
(* ===================================================================== *)

Module AnswerProps.

Import Entities Granite GraniteProps.

(** ** No answer is shorter than 10 characters *)

Ltac literal_length := apply Nat.leb_le; vm_compute; reflexivity.

Lemma reply_of_length (answer : result (list (gmap pystr pystr))) :
  (10 ≤ length (reply_of answer))%nat.
Proof.
  assert (Herr : (10 ≤ length msg_generation_error)%nat) by literal_length.
  assert (Hshort : (10 ≤ length msg_too_short)%nat) by literal_length.
  unfold reply_of. destruct answer as [[|o outs]|e]; try exact Herr.
  destruct (o !! str "generated_text") as [full|]; [|exact Herr].
  destruct (negb _ || _) eqn:E; [exact Hshort|].
  apply orb_false_iff in E as [_ E]. by apply Nat.ltb_ge in E.
Qed.

Lemma generate_response_length (w : World) (s : Sys) (prompt : pystr)
    (max_length : Z) (temperature : PyFloat.float) :
  ∃ r, fst (generate_response prompt max_length temperature w s) = Ok r
       ∧ (10 ≤ length r)%nat.
Proof.
  rewrite generate_response_run. cbv zeta.
  destruct (available _); [destruct (tokenizer _)|]; eexists;
    (split; [reflexivity|]).
  - apply reply_of_length.
  - literal_length.
  - literal_length.
Qed.

Lemma try_simple_answer_length (question context : pystr) :
  truthy (_try_simple_answer question context) = true →
  (10 ≤ length (_try_simple_answer question context))%nat.
Proof.
  unfold _try_simple_answer. cbv zeta.
  generalize (lower question) as question_lower. intros question_lower.
  destruct (contains question_lower (str "what is")
            || contains question_lower (str "define")).
  { destruct (contains question_lower (str "nda")
              || contains question_lower (str "non-disclosure"));
      [intros _; literal_length|].
    destruct (contains question_lower (str "contract"));
      [intros _; literal_length|].
    destruct (contains question_lower (str "clause"));
      [intros _; literal_length|].
    intros Ht. discriminate Ht. }
  destruct (contains question_lower (str "how to")).
  { destruct (contains question_lower (str "simplify"));
      [intros _; literal_length|].
    intros Ht. discriminate Ht. }
  destruct (contains question_lower (str "summarize"));
    [|intros Ht; discriminate Ht].
  destruct (truthy context); intros _; [|literal_length].
  rewrite !length_app.
  assert (E : length (str "Summary: ") = 9%nat) by (vm_compute; reflexivity).
  assert (E' : (1 ≤ length (str "... (This is a basic summary. Upload a document for detailed AI analysis.)"))%nat)
    by literal_length.
  lia.
Qed.

Lemma fallback_answer_length (question context : pystr) :
  (10 ≤ length (_fallback_answer question context))%nat.
Proof.
  unfold _fallback_answer. cbv zeta.
  generalize (lower question) as question_lower. intros question_lower.
  destruct (contains question_lower (str "summarize")
            || contains question_lower (str "summary")); [literal_length|].
  destruct (contains question_lower (str "parties")
            || contains question_lower (str "who")); [literal_length|].
  destruct (contains question_lower (str "obligation")
            || contains question_lower (str "responsibility")); [literal_length|].
  destruct (contains question_lower (str "date")
            || contains question_lower (str "when")); literal_length.
Qed.

(** Whatever the environment and the state, the three operations that
    answer in text return at least 10 characters: the caller never
    receives an empty or near-empty answer. *)
Theorem answers_have_ten_characters (w : World) (s : Sys) :
  (∀ prompt max_length temperature,
     ∃ r, fst (generate_response prompt max_length temperature w s) = Ok r
          ∧ (10 ≤ length r)%nat)
  ∧ (∀ clause_text,
       ∃ r, fst (simplify_clause clause_text w s) = Ok r ∧ (10 ≤ length r)%nat)
  ∧ (∀ question context,
       ∃ r, fst (answer_question question context w s) = Ok r
            ∧ (10 ≤ length r)%nat).
Proof.
  split; [|split].
  - intros. apply generate_response_length.
  - intros clause_text. rewrite simplify_clause_run.
    destruct (model_loaded _); [apply generate_response_length|].
    eexists. split; [reflexivity|].
    unfold simplify_fallback. rewrite !length_app.
    assert (E : length (str "Simplified: ") = 12%nat) by (vm_compute; reflexivity).
    lia.
  - intros question context. rewrite answer_question_run.
    destruct (truthy _) eqn:Hs.
    + eexists. split; [reflexivity|]. by apply try_simple_answer_length.
    + destruct (model_loaded _); [apply generate_response_length|].
      eexists. split; [reflexivity|]. apply fallback_answer_length.
Qed.

(** ** When the loaded model fails to generate *)

(** Acquisition succeeds, but every generation call raises. *)
Definition failing_world : World :=
  {| acquire := fun _ =>
       {| tokenizer_from_pretrained := Ok {| eos_token_id := Some 0%Z |};
          model_from_pretrained := Ok (model_handle 0);
          make_pipeline := Ok (pipeline_handle 0) |};
     run_pipeline := fun _ _ => Raise (str "CUDA out of memory") |}.

Lemma canned_messages_parse_to_defaults :
  parse_entities msg_generation_error = empty_entities
  ∧ parse_classification msg_generation_error = default_classification
  ∧ parse_entities msg_too_short = empty_entities
  ∧ parse_classification msg_too_short = default_classification
  ∧ parse_entities msg_model_not_available = empty_entities
  ∧ parse_classification msg_model_not_available = default_classification.
Proof. repeat split; vm_compute; reflexivity. Qed.

(** With the model loaded and a pipeline present, a generation call that
    raises is absorbed inside [generate_response]: [simplify_clause] and
    [answer_question] (for a question without canned answer) return the
    "technical difficulties" message, [extract_entities_with_ai] returns
    five empty lists, and [classify_document_with_ai] returns the parser's
    defaults (confidence 0.5, no key characteristics) rather than the
    value of its own error branch (confidence 0.3). *)
Theorem generation_failure_is_absorbed (w : World) (s : Sys) :
  model_loaded (self s) = true →
  is_Some (pipeline (self s)) →
  (∀ req, ∃ e, run_pipeline w (length (issued s)) req = Raise e) →
  (∀ clause_text, fst (simplify_clause clause_text w s) = Ok msg_generation_error)
  ∧ (∀ question context,
       truthy (_try_simple_answer question context) = false →
       fst (answer_question question context w s) = Ok msg_generation_error)
  ∧ (∀ text, fst (extract_entities_with_ai text w s) = Ok empty_entities)
  ∧ (∀ text,
       fst (classify_document_with_ai text w s) = Ok default_classification).
Proof.
  intros Hl Hp Hraise.
  assert (Hgen : ∀ prompt n,
    generate_response prompt n default_temperature w s
    = (Ok msg_generation_error,
       match tokenizer (self s) with
       | Some t => with_request s (issued_request prompt n (eos_token_id t))
       | None => s
       end)).
  { intros prompt n. rewrite generate_response_run. cbv zeta.
    rewrite (ensure_loaded w s Hl). unfold available. rewrite Hl.
    rewrite (bool_decide_eq_true_2 _ Hp). cbn [andb].
    destruct (tokenizer (self s)) as [t|]; [|done].
    destruct (Hraise (issued_request prompt n (eos_token_id t))) as [e ->].
    done. }
  destruct canned_messages_parse_to_defaults as (He & Hc & _).
  split; [|split; [|split]].
  - intros clause_text. rewrite simplify_clause_run, (ensure_loaded w s Hl), Hl.
    by rewrite Hgen.
  - intros question context Hno.
    rewrite answer_question_run, Hno, (ensure_loaded w s Hl), Hl.
    by rewrite Hgen.
  - intros text.
    rewrite extract_entities_with_ai_run, (ensure_loaded w s Hl), Hl, Hgen.
    cbn [fst]. by rewrite He.
  - intros text.
    rewrite classify_document_with_ai_run, (ensure_loaded w s Hl), Hl, Hgen.
    cbn [fst]. by rewrite Hc.
Qed.

Lemma generation_failure_is_absorbed_witness :
  fst (classify_document_with_ai (str "Lease agreement") failing_world
         (after_ensure failing_world initial)) = Ok default_classification
  ∧ fst (extract_entities_with_ai (str "Lease agreement") failing_world
           (after_ensure failing_world initial)) = Ok empty_entities.
Proof.
  destruct (generation_failure_is_absorbed failing_world
              (after_ensure failing_world initial))
    as (_ & _ & He & Hc).
  - reflexivity.
  - by eexists.
  - intros req. by eexists.
  - split; [apply Hc|apply He].
Defined.

End AnswerProps.

(* ===================================================================== *)
(** * What the extractor's patterns guarantee                             *)
(* ===================================================================== *)

Module PatternFacts.

Import Entities StrProps RegexLang.





(** ** Every match opens with a visible character *)









(** ** Obligations end at the first full stop *)






End PatternFacts.

(* ===================================================================== *)
(** * What the reconciliation keeps                                       *)
(* ===================================================================== *)

Module MergeCoverage.

Import Entities Granite GraniteProps Router.

Lemma list_of_set_length (O : SetOrder) (xs : list pystr) :
  (length (list_of_set O xs) ≤ length xs)%nat.
Proof.
  apply submseteq_length, NoDup_submseteq; [apply list_of_set_NoDup|].
  intros x. apply list_of_set_elem.
Qed.

Lemma bool_filter_length (f : pystr -> bool) (l : list pystr) :
  (length (List.filter f l) ≤ length l)%nat.
Proof. induction l as [|x l IH]; simpl; [done|]. destruct (f x); simpl; lia. Qed.

(** Below the cap the merged list has exactly the non-blank items of the
    two inputs. *)
Lemma merged_items_below_cap (O : SetOrder) (A B : entity_dict)
    (category x : pystr) :
  (length (get A category ++ get B category) ≤ 10)%nat →
  x ∈ MergeProps.merged_items O A B category
  ↔ (x ∈ get A category ∨ x ∈ get B category) ∧ non_blank x = true.
Proof.
  intros Hcap. unfold MergeProps.merged_items.
  rewrite take_ge.
  - by rewrite MergeProps.elem_of_bool_filter, list_of_set_elem, elem_of_app.
  - etrans; [apply bool_filter_length|].
    etrans; [apply list_of_set_length|done].
Qed.

(** When the two lists of a category hold at most 10 items together, the
    merge loses nothing but blanks: an item is in the merged list exactly
    when it is in one of the inputs and is not empty or whitespace-only;
    so, as sets, the merge does not depend on the order of its two
    arguments. *)
Theorem merge_below_cap_is_the_union (O : SetOrder) (A B : entity_dict)
    (category : pystr) :
  category ∈ categories →
  (length (get A category) + length (get B category) ≤ 10)%nat →
  (∀ x, x ∈ get (merge_entity_results O A B) category
        ↔ (x ∈ get A category ∨ x ∈ get B category) ∧ non_blank x = true)
  ∧ (∀ x, x ∈ get (merge_entity_results O A B) category
          ↔ x ∈ get (merge_entity_results O B A) category).
Proof.
  intros Hin Hcap.
  assert (HAB : ∀ x, x ∈ get (merge_entity_results O A B) category
            ↔ (x ∈ get A category ∨ x ∈ get B category) ∧ non_blank x = true).
  { intros x. unfold get at 1. rewrite MergeProps.merge_lookup by done.
    apply merged_items_below_cap. rewrite length_app. lia. }
  assert (HBA : ∀ x, x ∈ get (merge_entity_results O B A) category
            ↔ (x ∈ get B category ∨ x ∈ get A category) ∧ non_blank x = true).
  { intros x. unfold get at 1. rewrite MergeProps.merge_lookup by done.
    apply merged_items_below_cap. rewrite length_app. lia. }
  split; [done|].
  intros x. rewrite HAB, HBA. tauto.
Qed.

Lemma merge_below_cap_is_the_union_witness :
  str "Beta LLC" ∈ get (merge_entity_results insertion_order MergeProps.sample_ai
                          MergeProps.sample_rule) (str "parties")
  ∧ str "John Smith" ∈ get (merge_entity_results insertion_order
                              MergeProps.sample_rule MergeProps.sample_ai)
                           (str "parties").
Proof.
  assert (Hin : str "parties" ∈ categories) by (vm_compute; left).
  assert (Hcap : (length (get MergeProps.sample_ai (str "parties"))
                  + length (get MergeProps.sample_rule (str "parties")) ≤ 10)%nat)
    by (vm_compute; lia).
  destruct (merge_below_cap_is_the_union insertion_order MergeProps.sample_ai
              MergeProps.sample_rule (str "parties") Hin Hcap) as [Hunion Hsym].
  split.
  - apply Hunion. split; [|vm_compute; reflexivity].
    right. vm_compute. right. left.
  - apply Hsym, Hunion. split; [|vm_compute; reflexivity].
    left. vm_compute. left.
Defined.

(** ** The endpoint without a model *)










(** No item of the AI dict is blank. *)
Lemma ai_items (text : pystr) (w : World) (s : Sys) (ai : entity_dict)
    (s' : Sys) (category x : pystr) :
  extract_entities_with_ai text w s = (Ok ai, s') →
  x ∈ get ai category → non_blank x = true.
Proof.
  intros Hrun Hx.
  assert (Hall : ParserInvariants.all_trimmed ai).
  { rewrite extract_entities_with_ai_run in Hrun.
    destruct (model_loaded _).
    - destruct (generate_response _ _ _ _ _) as [[response|e] s1].
      + injection Hrun as <- _.
        apply ParserInvariants.parse_entity_lines_trimmed,
          ParserInvariants.empty_entities_trimmed.
      + injection Hrun as <- _. apply ParserInvariants.empty_entities_trimmed.
    - injection Hrun as <- _. apply ParserInvariants.empty_entities_trimmed. }
  unfold get in Hx. destruct (ai !! category) as [items|] eqn:Hitems;
    [|by apply elem_of_nil in Hx].
  specialize (Hall category items Hitems). cbn beta in Hall.
  rewrite Forall_forall in Hall. destruct (Hall x Hx) as [Hne Hs].
  apply MergeProps.non_blank_spec. by rewrite Hs.
Qed.




End MergeCoverage.

(* ===================================================================== *)
(** * What the operations read of their inputs                            *)
(* ===================================================================== *)

Module InputProps.

Import Entities Granite GraniteProps.

(** ** Only an excerpt of the document reaches the model *)

(** A question without canned answer has none whatever the context. *)
Lemma no_simple_answer_context (question context context' : pystr) :
  truthy (_try_simple_answer question context) = false →
  truthy (_try_simple_answer question context') = false.
Proof.
  unfold _try_simple_answer. cbv zeta.
  generalize (lower question) as question_lower. intros question_lower.
  destruct (contains question_lower (str "what is")
            || contains question_lower (str "define")); [done|].
  destruct (contains question_lower (str "how to")); [done|].
  destruct (contains question_lower (str "summarize")); [|done].
  intros Ht. exfalso. destruct (truthy context).
  - change (str "Summary: ") with (83 :: List.tl (str "Summary: ")) in Ht.
    discriminate Ht.
  - vm_compute in Ht. discriminate Ht.
Qed.

Lemma take_truthy (n : nat) (a b : pystr) :
  take (S n) a = take (S n) b → truthy a = truthy b.
Proof. by destruct a, b. Qed.

(** The AI extractor reads the first 2000 characters of the document, the
    AI classifier the first 1500, and a question without canned answer is
    answered from the first 1000 characters of its context: two inputs
    that agree on that excerpt get the same result, the same requests and
    the same state, whatever follows the excerpt. *)
Theorem only_the_excerpt_reaches_the_model (text text' : pystr) (w : World)
    (s : Sys) :
  (take 2000 text = take 2000 text' →
   extract_entities_with_ai text w s = extract_entities_with_ai text' w s)
  ∧ (take 1500 text = take 1500 text' →
     classify_document_with_ai text w s = classify_document_with_ai text' w s)
  ∧ (∀ question,
       truthy (_try_simple_answer question text) = false →
       take 1000 text = take 1000 text' →
       answer_question question text w s = answer_question question text' w s).
Proof.
  split; [|split].
  - intros E. rewrite !extract_entities_with_ai_run. unfold entities_prompt.
    by rewrite E.
  - intros E. rewrite !classify_document_with_ai_run.
    unfold classification_prompt. by rewrite E.
  - intros question Hno E. rewrite !answer_question_run.
    rewrite Hno, (no_simple_answer_context question text text' Hno).
    unfold question_prompt. rewrite E, (take_truthy _ _ _ E).
    reflexivity.
Qed.

(** Two documents that differ in their 2001st character only. *)
Definition long_document (last : N) : pystr := replicate 2000 97 ++ [last].

Lemma only_the_excerpt_reaches_the_model_witness :
  extract_entities_with_ai (long_document 120)
    (echo_world (str "PARTIES: Acme Corp")) initial
  = extract_entities_with_ai (long_document 121)
      (echo_world (str "PARTIES: Acme Corp")) initial
  ∧ classify_document_with_ai (long_document 120)
      (echo_world (str "Type: Lease Agreement")) initial
    = classify_document_with_ai (long_document 121)
        (echo_world (str "Type: Lease Agreement")) initial
  ∧ answer_question (str "Who pays the rent?") (long_document 120)
      (echo_world (str "The tenant pays the rent.")) initial
    = answer_question (str "Who pays the rent?") (long_document 121)
        (echo_world (str "The tenant pays the rent.")) initial.
Proof.
  split; [|split].
  - apply (only_the_excerpt_reaches_the_model (long_document 120)
             (long_document 121)).
    vm_compute. reflexivity.
  - apply (only_the_excerpt_reaches_the_model (long_document 120)
             (long_document 121)).
    vm_compute. reflexivity.
  - apply (only_the_excerpt_reaches_the_model (long_document 120)
             (long_document 121)).
    + vm_compute. reflexivity.
    + vm_compute. reflexivity.
Defined.

(** ** The canned summary *)

(** The questions that reach the summary branch of [_try_simple_answer]:
    they mention "summarize" and none of "what is", "define", "how to",
    in any letter case. *)
Definition asks_for_summary (question : pystr) : bool :=
  let question_lower := lower question in
  negb (contains question_lower (str "what is")
        || contains question_lower (str "define"))
  && negb (contains question_lower (str "how to"))
  && contains question_lower (str "summarize").

Lemma split_sentence (sentence rest : pystr) :
  contains sentence (str ".") = false →
  split (sentence ++ str "." ++ rest) (str ".")
  = sentence :: split rest (str ".").
Proof.
  intros Hfree. unfold split.
  change (str ".") with [46] in *. cbn [app].
  rewrite ParserInvariants.split_go_char_app.
  by rewrite (ReplyProps.split_go_absent [46] sentence []).
Qed.

(** A request to summarize is answered without the model, from the first
    three sentences of the context alone: the answer is those sentences
    joined by ". " between a fixed opening and a fixed closing text, the
    rest of the document plays no part, and the service state is left as
    it was. *)
Theorem summary_is_the_first_three_sentences (question s1 s2 s3 rest : pystr)
    (w : World) (s : Sys) :
  asks_for_summary question = true →
  contains s1 (str ".") = false →
  contains s2 (str ".") = false →
  contains s3 (str ".") = false →
  answer_question question (s1 ++ str "." ++ s2 ++ str "." ++ s3 ++ str "." ++ rest)
    w s
  = (Ok (str "Summary: " ++ s1 ++ str ". " ++ s2 ++ str ". " ++ s3
         ++ str "... (This is a basic summary. Upload a document for detailed AI analysis.)"),
     s).
Proof.
  intros Hq H1 H2 H3.
  unfold asks_for_summary in Hq. cbv zeta in Hq.
  apply andb_true_iff in Hq as [Hq Hsum].
  apply andb_true_iff in Hq as [Hwhat Hhow].
  apply negb_true_iff in Hwhat, Hhow.
  set (context := s1 ++ str "." ++ s2 ++ str "." ++ s3 ++ str "." ++ rest).
  assert (Htruthy : truthy context = true).
  { subst context. change (str ".") with [46]. by destruct s1. }
  assert (E : _try_simple_answer question context
    = str "Summary: " ++ s1 ++ str ". " ++ s2 ++ str ". " ++ s3
      ++ str "... (This is a basic summary. Upload a document for detailed AI analysis.)").
  { unfold _try_simple_answer. cbv zeta.
    rewrite Hwhat, Hhow, Hsum, Htruthy. subst context.
    rewrite !split_sentence by done. cbn [take join].
    by rewrite <- !app_assoc. }
  rewrite answer_question_run, E.
  change (str "Summary: ") with (83 :: List.tl (str "Summary: ")).
  reflexivity.
Qed.

Lemma summary_is_the_first_three_sentences_witness :
  answer_question (str "Please SUMMARIZE the lease")
    (str "Rent is due monthly" ++ str "." ++ str " The term is one year"
     ++ str "." ++ str " Either party may terminate" ++ str "."
     ++ str " Notices are sent by mail.")
    offline_world initial
  = (Ok (str "Summary: " ++ str "Rent is due monthly" ++ str ". "
         ++ str " The term is one year" ++ str ". "
         ++ str " Either party may terminate"
         ++ str "... (This is a basic summary. Upload a document for detailed AI analysis.)"),
     initial).
Proof.
  apply summary_is_the_first_three_sentences; vm_compute; reflexivity.
Defined.

End InputProps.

(* ===================================================================== *)
(** * The reply holds no turn marker                                      *)
(* ===================================================================== *)

Module ReplyMarker.

Import Entities Granite GraniteProps StrProps.

(** ** Occurrences *)

Lemma contains_occurs (s sub : pystr) :
  contains s sub = true ↔ occurs_in sub s.
Proof.
  split.
  - induction s as [|c s IH]; cbn [contains].
    + rewrite orb_false_r. intros (rest & E)%ReplyProps.startswith_inv.
      exists [], rest. done.
    + intros [(rest & E)%ReplyProps.startswith_inv|H]%orb_true_iff.
      * exists [], rest. done.
      * destruct (IH H) as (a & b & ->). by exists (c :: a), b.
  - intros (a & b & ->). induction a as [|c a IH].
    + cbn [app]. destruct (sub ++ b) as [|d t] eqn:E; cbn [contains];
        rewrite <- E, ReplyProps.startswith_app; done.
    + cbn [app contains]. by rewrite IH, orb_true_r.
Qed.

Lemma contains_occurs_false (x s sub : pystr) :
  occurs_in x s → contains s sub = false → contains x sub = false.
Proof.
  intros Hx Hs. destruct (contains x sub) eqn:E; [|done].
  apply contains_occurs in E.
  assert (H : contains s sub = true).
  { apply contains_occurs. by eapply occurs_in_trans. }
  by rewrite H in Hs.
Qed.

(** ** The last field of a split *)

(** No occurrence of [sep] starts at one of the first [k] positions of
    [t]. *)
Definition no_start (sep : pystr) (k : nat) (t : pystr) : Prop :=
  ∀ i, (i < k)%nat → startswith (drop i t) sep = false.

Lemma no_start_contains (sep t : pystr) :
  sep ≠ [] → no_start sep (length t) t → contains t sep = false.
Proof.
  intros Hsep. induction t as [|c t IH]; intros Hno.
  - by destruct sep.
  - cbn [contains]. apply orb_false_iff. split.
    + apply (Hno 0%nat). simpl. lia.
    + apply IH. intros i Hi. apply (Hno (S i)). simpl. lia.
Qed.

Lemma split_go_last_free (sep : pystr) :
  sep ≠ [] →
  ∀ s skip cur,
    (skip = 0%nat ∨ cur = []) →
    no_start sep (length cur) (rev cur ++ s) →
    contains (List.last (split_go sep skip cur s) []) sep = false.
Proof.
  intros Hsep. induction s as [|c s IH]; intros skip cur Hstate Hno.
  - cbn [split_go List.last]. rewrite app_nil_r in Hno.
    apply no_start_contains; [done|]. by rewrite length_rev.
  - cbn [split_go]. destruct skip as [|k].
    + destruct (startswith (c :: s) sep) eqn:Hhere.
      * rewrite ReplyProps.last_cons_nonempty
          by apply ReplyProps.split_go_nonempty.
        apply IH; [by right|]. intros i Hi. simpl in Hi. lia.
      * apply IH; [by left|]. intros i Hi. cbn [rev length] in *.
        rewrite <- app_assoc. cbn [app].
        destruct (decide (i < length cur)%nat) as [Hlt|Hge].
        -- by apply Hno.
        -- assert (i = length cur) as -> by lia.
           rewrite <- (length_rev cur), drop_app_length. exact Hhere.
    + destruct Hstate as [? | ->]; [done|].
      apply IH; [by right|]. intros i Hi. simpl in Hi. lia.
Qed.

(** The last field of a split holds no occurrence of the separator. *)
Lemma last_field_free (s sep : pystr) :
  sep ≠ [] → contains (List.last (split s sep) []) sep = false.
Proof.
  intros Hsep. unfold split. apply split_go_last_free; [done|by left|].
  intros i Hi. simpl in Hi. lia.
Qed.

Lemma answer_part_free (full_response : pystr) :
  contains (answer_part full_response) assistant_marker = false.
Proof.
  unfold answer_part.
  eapply contains_occurs_false; [apply strip_occurs|].
  apply last_field_free.
  destruct ReplyProps.marker_head_fresh as (a & sep' & -> & _). done.
Qed.

(** Whatever the pipeline generates, the text returned by
    [generate_response] holds no turn marker: the answer is cut after the
    last marker of the generated text, and none of the fixed messages
    holds one. *)
Theorem reply_holds_no_turn_marker (w : World) (s : Sys) (prompt : pystr)
    (max_length : Z) (temperature : PyFloat.float) :
  ∃ r, fst (generate_response prompt max_length temperature w s) = Ok r
       ∧ contains r assistant_marker = false.
Proof.
  assert (Hna : contains msg_model_not_available assistant_marker = false)
    by (vm_compute; reflexivity).
  assert (Herr : contains msg_generation_error assistant_marker = false)
    by (vm_compute; reflexivity).
  assert (Hshort : contains msg_too_short assistant_marker = false)
    by (vm_compute; reflexivity).
  rewrite generate_response_run. cbv zeta.
  destruct (available _); [destruct (tokenizer _)|]; eexists;
    (split; [reflexivity|]); [|exact Herr|exact Hna].
  unfold reply_of. destruct (run_pipeline _ _ _) as [[|o outs]|e];
    try exact Herr.
  destruct (o !! str "generated_text") as [full|]; [|exact Herr].
  destruct (negb _ || _); [exact Hshort|apply answer_part_free].
Qed.

End ReplyMarker.

(* ===================================================================== *)
(** * The strings of a parsed classification                              *)
(* ===================================================================== *)

Module ClassificationShape.

Import Entities Granite StrProps.

Lemma header_value_trimmed (header line x : pystr) :
  x ∈ ClassificationFields.header_value header line →
  ParserInvariants.trimmed x.
Proof.
  unfold ClassificationFields.header_value. cbv zeta.
  destruct (startswith _ _); cbn [andb]; [|by intros ?%elem_of_nil].
  destruct (truthy _) eqn:Ht; [|by intros ?%elem_of_nil].
  intros ->%list_elem_of_singleton.
  by apply ParserInvariants.strip_truthy_trimmed.
Qed.

Lemma last_trimmed (l : list pystr) (d : pystr) :
  Forall ParserInvariants.trimmed l → ParserInvariants.trimmed d →
  ParserInvariants.trimmed (List.last l d).
Proof.
  intros Hl Hd. induction Hl as [|x l Hx Hl IH]; [done|].
  destruct l as [|y l]; [done|]. exact IH.
Qed.

Lemma bullet_item_trimmed (line x : pystr) :
  x ∈ ParserProps.bullet_item line → ParserInvariants.trimmed x.
Proof.
  unfold ParserProps.bullet_item. cbv zeta.
  destruct (ParserProps.is_bullet _); cbn [andb]; [|by intros ?%elem_of_nil].
  destruct (truthy _) eqn:Ht; [|by intros ?%elem_of_nil].
  intros ->%list_elem_of_singleton.
  by apply ParserInvariants.strip_truthy_trimmed.
Qed.

Lemma default_strings_trimmed :
  strip (str "General Legal Document") = str "General Legal Document"
  ∧ strip (str "Legal document analysis") = str "Legal document analysis".
Proof. split; vm_compute; reflexivity. Qed.

(** Whatever the reply, the type and the description of a parsed
    classification and each of its key characteristics are non-empty and
    have no leading or trailing white space. *)
Theorem classification_strings_are_trimmed (response : pystr) :
  (type (parse_classification response) ≠ []
   ∧ strip (type (parse_classification response))
     = type (parse_classification response))
  ∧ (description (parse_classification response) ≠ []
     ∧ strip (description (parse_classification response))
       = description (parse_classification response))
  ∧ Forall (fun x => x ≠ [] ∧ strip x = x)
           (key_characteristics (parse_classification response)).
Proof.
  destruct default_strings_trimmed as [Et Ed].
  destruct (ClassificationFields.classification_fold_fields
              (split response [LF]) default_classification) as (Ht & Hd & _).
  unfold parse_classification. rewrite Ht, Hd.
  assert (Hvalues : ∀ header,
    Forall ParserInvariants.trimmed
      (flat_map (ClassificationFields.header_value header) (split response [LF]))).
  { intros header. apply Forall_forall.
    intros x (line & _ & Hx)%ExtractorItems.elem_of_flat_map.
    by eapply header_value_trimmed. }
  split; [|split].
  - apply (last_trimmed _ _ (Hvalues _)). split; [discriminate|exact Et].
  - apply (last_trimmed _ _ (Hvalues _)). split; [discriminate|exact Ed].
  - rewrite ParserProps.classification_fold_bullets. cbn [app].
    apply Forall_forall.
    intros x (line & _ & Hx)%ExtractorItems.elem_of_flat_map.
    by eapply bullet_item_trimmed.
Qed.

End ClassificationShape.

(* ===================================================================== *)
(** * What does not depend on the iteration order of sets                 *)
(* ===================================================================== *)

Module OrderIndependence.

Import Entities.

(** The candidates from which each extractor builds its set. *)
Definition party_candidates (text : pystr) : list pystr :=
  map strip
    (List.filter (fun p => (3 <? length (strip p))%nat)
       (flat_map (fun pattern => Re.findall pattern text [Re.IGNORECASE])
                 party_patterns)).

Definition date_candidates (text : pystr) : list pystr :=
  flat_map (fun pattern => Re.findall pattern text [Re.IGNORECASE]) date_patterns.

Definition monetary_candidates (text : pystr) : list pystr :=
  flat_map (fun pattern => Re.findall pattern text [Re.IGNORECASE])
           monetary_patterns.

Lemma list_of_set_distinct (O : SetOrder) (xs : list pystr) :
  list_of_set O xs ≡ₚ remove_dups xs.
Proof.
  apply NoDup_Permutation.
  - apply list_of_set_NoDup.
  - apply NoDup_remove_dups.
  - intros x. by rewrite list_of_set_elem, elem_of_remove_dups.
Qed.

(** Up to five distinct candidates are all returned, in some order. *)
Lemma capped_set_below_cap (O : SetOrder) (xs : list pystr) :
  (length (remove_dups xs) ≤ 5)%nat →
  take 5 (list_of_set O xs) ≡ₚ remove_dups xs.
Proof.
  intros Hlen. rewrite take_ge; [apply list_of_set_distinct|].
  by rewrite (list_of_set_distinct O xs).
Qed.

(** With more than five, five distinct ones are returned. *)
Lemma capped_set_above_cap (O : SetOrder) (xs : list pystr) :
  (5 < length (remove_dups xs))%nat →
  length (take 5 (list_of_set O xs)) = 5%nat.
Proof.
  intros Hlen. rewrite length_take, (list_of_set_distinct O xs). lia.
Qed.

(** The result of [extract_parties], [extract_dates] and
    [extract_monetary_values] depends on the iteration order of the set
    only through the order of its items, as long as the text yields at
    most five distinct candidates: the result then holds each distinct
    candidate exactly once.  With more than five distinct candidates it
    holds five of them; which five is left to the iteration order. *)
Theorem extraction_below_cap_is_order_independent (O : SetOrder) (text : pystr) :
  ((length (remove_dups (party_candidates text)) ≤ 5)%nat →
   extract_parties O text ≡ₚ remove_dups (party_candidates text))
  ∧ ((length (remove_dups (date_candidates text)) ≤ 5)%nat →
     extract_dates O text ≡ₚ remove_dups (date_candidates text))
  ∧ ((length (remove_dups (monetary_candidates text)) ≤ 5)%nat →
     extract_monetary_values O text ≡ₚ remove_dups (monetary_candidates text))
  ∧ ((5 < length (remove_dups (party_candidates text)))%nat →
     length (extract_parties O text) = 5%nat)
  ∧ ((5 < length (remove_dups (date_candidates text)))%nat →
     length (extract_dates O text) = 5%nat)
  ∧ ((5 < length (remove_dups (monetary_candidates text)))%nat →
     length (extract_monetary_values O text) = 5%nat).
Proof.
  repeat split; first [apply capped_set_below_cap | apply capped_set_above_cap].
Qed.

Lemma extraction_below_cap_is_order_independent_witness :
  extract_dates insertion_order
    (str "Signed on 5 January 2024, due within 30 days, renewed on 5 January 2024.")
  ≡ₚ [str "5 January 2024"; str "within 30 days"].
Proof.
  destruct (extraction_below_cap_is_order_independent insertion_order
              (str "Signed on 5 January 2024, due within 30 days, renewed on 5 January 2024."))
    as (_ & Hdates & _).
  etrans; [apply Hdates; vm_compute; lia|].
  vm_compute. reflexivity.
Defined.

End OrderIndependence.
